(** * E-commerce sales forecasting pipeline: a shallow embedding

    The development follows the Python sources under
    [ecommerce_sales_forecasting/]:

    - [data/generate_data.py]   (synthetic sales table),
    - [src/preprocess.py]       (grouping, monthly resampling, train/test split),
    - [src/arima_model.py]      (stationarity loop and ARIMA pipeline),
    - [src/prophet_model.py]    (Prophet pipeline),
    - [src/evaluate.py]         (MAE / RMSE / MAPE and the model comparison).

    Python values are modelled as follows.  A [float] is an IEEE-754 binary64
    value, represented by [spec_float] with the operations of the standard
    library's executable specification (round to nearest even, signed zeros,
    infinities, NaN).  A Python [int] is a [Z].  A [dict] is an association
    list in insertion order with pairwise distinct keys.  A call that can
    raise returns a [result].  The numerical libraries the scripts call
    (statsmodels, Prophet, numpy.random, [np.sin], [strptime]) are interfaces
    whose implementations are not part of the repository: they are type
    classes, and every statement below quantifies over their instances. *)

From Stdlib Require Import String Ascii DecimalString.
From Stdlib Require Import ZArith List Bool Lia.
From Stdlib Require Import Sorted.
From Stdlib Require Import SpecFloat.
From Equations Require Import Equations.
Import ListNotations.

Local Open Scope Z_scope.
Local Open Scope list_scope.

Set Implicit Arguments.

(* ===================================================================== *)
(** * Part I: definitions                                                *)
(* ===================================================================== *)

(** ** Python exceptions and fallible computations *)

Inductive exn : Type :=
| ValueError
| KeyError
| OverflowError
| LinAlgError.

Inductive result (A : Type) : Type :=
| Ok (a : A)
| Raise (e : exn).

Arguments Ok {A} a.
Arguments Raise {A} e.

Definition bind {A B} (m : result A) (k : A -> result B) : result B :=
  match m with
  | Ok a => k a
  | Raise e => Raise e
  end.

Declare Scope py_scope.
Delimit Scope py_scope with py.
Notation "x <- m ;; k" := (bind m (fun x => k))
  (at level 61, m at next level, right associativity) : py_scope.
Notation "' p <- m ;; k" := (bind m (fun p => k))
  (at level 61, p pattern, m at next level, right associativity) : py_scope.
Local Open Scope py_scope.

(** ** Python sequences: slicing with optional, possibly negative bounds *)

(** [seq[i]] as a slice bound on a sequence of length [n]: a negative bound
    counts from the end, and every bound is clamped to [0..n]. *)
Definition slice_bound (n i : Z) : Z :=
  if i <? 0 then Z.max 0 (i + n) else Z.min i n.

(** [l[start:stop]] with step 1; [None] is an omitted bound. *)
Definition py_slice {A} (start stop : option Z) (l : list A) : list A :=
  let n := Z.of_nat (length l) in
  let lo := match start with None => 0 | Some i => slice_bound n i end in
  let hi := match stop with None => n | Some j => slice_bound n j end in
  firstn (Z.to_nat (hi - lo)) (skipn (Z.to_nat lo) l).

(** ** Python dictionaries, in insertion order *)

Inductive Key : Type :=
| KInt (n : Z)
| KStr (s : string).

Definition Key_eq_dec (a b : Key) : {a = b} + {a <> b}.
Proof.
  decide equality; [apply Z.eq_dec | apply string_dec].
Defined.

Definition Key_eqb (a b : Key) : bool :=
  if Key_eq_dec a b then true else false.

Definition dict (V : Type) : Type := list (Key * V).

Fixpoint dict_get {V} (d : dict V) (k : Key) : option V :=
  match d with
  | [] => None
  | (k', v) :: d' => if Key_eqb k k' then Some v else dict_get d' k
  end.

(** [k in d] *)
Definition dict_mem {V} (d : dict V) (k : Key) : bool :=
  match dict_get d k with Some _ => true | None => false end.

(** [d[k]], which raises [KeyError] on a missing key. *)
Definition dict_item {V} (d : dict V) (k : Key) : result V :=
  match dict_get d k with Some v => Ok v | None => Raise KeyError end.

(** [d[k] = v]: an existing key keeps its position, a new key goes last. *)
Fixpoint dict_set {V} (d : dict V) (k : Key) (v : V) : dict V :=
  match d with
  | [] => [(k, v)]
  | (k', v') :: d' =>
      if Key_eqb k k' then (k', v) :: d' else (k', v') :: dict_set d' k v
  end.

Definition dict_keys {V} (d : dict V) : list Key := map fst d.

(** ** binary64 floating point *)

Definition float : Type := spec_float.

Module F64.
Definition prec : Z := 53.
Definition emax : Z := 1024.

Definition add : float -> float -> float := SFadd prec emax.
Definition sub : float -> float -> float := SFsub prec emax.
Definition mul : float -> float -> float := SFmul prec emax.
Definition div : float -> float -> float := SFdiv prec emax.
Definition sqrt : float -> float := SFsqrt prec emax.
Definition abs : float -> float := SFabs.
Definition ltb : float -> float -> bool := SFltb.

(** Conversion of a Python [int] (or an [int64]) to [float]. *)
Definition of_Z (n : Z) : float := binary_normalize prec emax n 0 false.

Definition zero : float := S754_zero false.
Definition inf : float := S754_infinity false.
Definition nan : float := S754_nan.

Definition is_nan (x : float) : bool :=
  match x with S754_nan => true | _ => false end.

(** [np.isfinite]: neither NaN nor an infinity. *)
Definition is_finite (x : float) : bool :=
  match x with S754_zero _ | S754_finite _ _ _ => true | _ => false end.

(** [x == 0] *)
Definition is_zero (x : float) : bool :=
  match x with S754_zero _ => true | _ => false end.

(** A finite number other than zero. *)
Definition is_nonzero_number (x : float) : bool :=
  match x with S754_finite _ _ _ => true | _ => false end.

(** Not NaN and sign bit clear: [+0.0], a positive number or [+inf]. *)
Definition nonneg (x : float) : bool :=
  match x with
  | S754_zero false | S754_infinity false | S754_finite false _ _ => true
  | _ => false
  end.

(** Truncation toward zero of a finite value, as [int(x)] computes it. *)
Definition trunc (x : float) : option Z :=
  match x with
  | S754_zero _ => Some 0
  | S754_finite s m e =>
      let a := match e with
               | Z0 => Zpos m
               | Zpos p => Z.shiftl (Zpos m) e
               | Zneg p => Z.shiftr (Zpos m) (Zpos p)
               end in
      Some (if s then - a else a)
  | _ => None
  end.

(** The literals of the sources, each the binary64 value nearest to the
    decimal constant. *)
Definition c0_05 : float := S754_finite false 7205759403792794 (-57).
Definition c0_1 : float := S754_finite false 7205759403792794 (-56).
Definition c1_2 : float := S754_finite false 5404319552844595 (-52).
Definition c1 : float := S754_finite false 4503599627370496 (-52).
Definition c100 : float := S754_finite false 7036874417766400 (-46).
Definition c0_9 : float := S754_finite false 8106479329266893 (-53).
Definition c0_8 : float := S754_finite false 7205759403792794 (-53).
(** [np.pi] = 3.141592653589793 *)
Definition pi : float := S754_finite false 7074237752028440 (-51).
End F64.

(** ** numpy arrays of dtype float64

    Numeric pandas columns are held at dtype float64.  A column that pandas
    would store as int64 is converted to float64 by the first arithmetic
    operation the scripts apply to it ([diff], the subtraction from a
    float64 forecast, true division), and every int64 below 2^53 in
    magnitude converts exactly. *)

Definition ndarray : Type := list float.

(** Element-wise binary operation on one-dimensional arrays with numpy's
    broadcasting: equal lengths, or one operand of length one. *)
Definition np_binop (op : float -> float -> float) (a b : ndarray)
  : result ndarray :=
  if Nat.eqb (length a) (length b) then
    Ok (map (fun xy => op (fst xy) (snd xy)) (combine a b))
  else
    match a, b with
    | _, [y] => Ok (map (fun x => op x y) a)
    | [x], _ => Ok (map (fun y => op x y) b)
    | _, _ => Raise ValueError
    end.

Definition np_abs (a : ndarray) : ndarray := map F64.abs a.

(** [a.sum()]: accumulation from [0.0].  numpy adds long arrays pairwise;
    the association changes the rounding of the partial sums only. *)
Definition np_sum (a : ndarray) : float := fold_left F64.add a F64.zero.

(** [np.mean(a)]: the sum divided by the element count.  An empty array
    gives [0.0 / 0] = NaN (with a warning, not an exception). *)
Definition np_mean (a : ndarray) : float :=
  F64.div (np_sum a) (F64.of_Z (Z.of_nat (length a))).

(** ** Loops *)

(** [for x in xs: body], where the body updates the loop state and an
    exception raised by the body leaves the loop. *)
Fixpoint for_in {A S} (xs : list A) (body : A -> S -> result S) (s : S)
  : result S :=
  match xs with
  | [] => Ok s
  | x :: xs' => s' <- body x s ;; for_in xs' body s'
  end.

(** [range(lo, lo + n)] *)
Definition Zrange (lo n : Z) : list Z :=
  map (fun k => lo + Z.of_nat k) (seq 0 (Z.to_nat n)).

(** ** Dates

    The scripts only handle calendar dates (the time of day is midnight
    throughout), so a timestamp is a year, a month and a day. *)

Record Timestamp : Type := mkTimestamp { year : Z; month : Z; day : Z }.

Definition is_leap (y : Z) : bool :=
  (y mod 4 =? 0) && (negb (y mod 100 =? 0) || (y mod 400 =? 0)).

Definition days_in_month (y m : Z) : Z :=
  match m with
  | 2 => if is_leap y then 29 else 28
  | 4 | 6 | 9 | 11 => 30
  | _ => 31
  end.

(** Months elapsed since year 0, the bucket of a monthly resampling. *)
Definition month_index (t : Timestamp) : Z := year t * 12 + (month t - 1).

(** The last day of the month with the given index: the label pandas gives
    a bucket of frequency ['M']. *)
Definition month_end (i : Z) : Timestamp :=
  let y := i / 12 in
  let m := i mod 12 + 1 in
  mkTimestamp y m (days_in_month y m).

Definition Timestamp_compare (a b : Timestamp) : comparison :=
  match year a ?= year b with
  | Eq => match month a ?= month b with
          | Eq => day a ?= day b
          | c => c
          end
  | c => c
  end.

Definition Timestamp_leb (a b : Timestamp) : bool :=
  match Timestamp_compare a b with Gt => false | _ => true end.

Definition Timestamp_ltb (a b : Timestamp) : bool :=
  match Timestamp_compare a b with Lt => true | _ => false end.

(** Days since 1970-01-01 in the proleptic Gregorian calendar. *)
Definition days_from_civil (t : Timestamp) : Z :=
  let y := if month t <=? 2 then year t - 1 else year t in
  let era := y / 400 in
  let yoe := y - era * 400 in
  let mp := (month t + 9) mod 12 in
  let doy := (153 * mp + 2) / 5 + day t - 1 in
  let doe := yoe * 365 + yoe / 4 - yoe / 100 + doy in
  era * 146097 + doe - 719468.

(** [(a - b).days] *)
Definition days_between (a b : Timestamp) : Z :=
  days_from_civil a - days_from_civil b.

(** A date well inside the range pandas' [Timestamp] can hold
    (1677-09-21 to 2262-04-11). *)
Definition within_timestamp_range (t : Timestamp) : Prop :=
  1678 <= year t <= 2261.

(** [pd.date_range(start, end, freq='M')]: the month ends from [start] to
    [end], both included.  This is the result for end points
    [within_timestamp_range]; on an end point that pandas' [Timestamp]
    cannot hold, [pd.date_range] raises [OutOfBoundsDatetime], which is not
    modelled. *)
Definition pd_date_range_M (start end_ : Timestamp) : list Timestamp :=
  filter (fun t => Timestamp_leb start t && Timestamp_leb t end_)
         (map month_end
              (Zrange (month_index start)
                      (month_index end_ - month_index start + 1))).

(** ** pandas series and frames

    A [Series] is a float64 column with its date index; a frame reduced to
    its ['sales'] column has the same shape, and [df['sales']] is then the
    identity. *)

Definition Series : Type := list (Timestamp * float).
Definition SalesFrame : Type := list (Timestamp * float).

(** [s.values] *)
Definition values (s : Series) : ndarray := map snd s.

Fixpoint diff_from (prev : float) (s : Series) : Series :=
  match s with
  | [] => []
  | (t, x) :: rest => (t, F64.sub x prev) :: diff_from x rest
  end.

(** [s.diff()]: first differences, the first entry being NaN. *)
Definition diff (s : Series) : Series :=
  match s with
  | [] => []
  | (t, x) :: rest => (t, F64.nan) :: diff_from x rest
  end.

(** [s.dropna()] *)
Definition dropna (s : Series) : Series :=
  filter (fun tx => negb (F64.is_nan (snd tx))) s.

(** ** The sales table *)

Record Row : Type := mkRow {
  date : Timestamp;
  product_id : Z;
  category : string;
  sales : float;
  price : float;
  promotion_flag : Z
}.

Definition DataFrame : Type := list Row.

(** The columns [preprocess_data] is documented to group by. *)
Inductive Column : Type := col_product_id | col_category.

Definition key_of (c : Column) (r : Row) : Key :=
  match c with
  | col_product_id => KInt (product_id r)
  | col_category => KStr (category r)
  end.

Definition Key_leb (a b : Key) : bool :=
  match a, b with
  | KInt x, KInt y => x <=? y
  | KStr x, KStr y => String.leb x y
  | KInt _, KStr _ => true
  | KStr _, KInt _ => false
  end.

Fixpoint insert_sorted (k : Key) (l : list Key) : list Key :=
  match l with
  | [] => [k]
  | k' :: l' => if Key_leb k k' then k :: l else k' :: insert_sorted k l'
  end.

(** Adds a key to the sorted list of the distinct keys seen so far. *)
Definition insert_key (k : Key) (l : list Key) : list Key :=
  if existsb (Key_eqb k) l then l else insert_sorted k l.

(** [df.groupby(col)]: one group per distinct key, in increasing key
    order, each with its rows in table order. *)
Definition groupby (df : DataFrame) (c : Column) : list (Key * list Row) :=
  map (fun k => (k, filter (fun r => Key_eqb (key_of c r) k) df))
      (fold_left (fun acc r => insert_key (key_of c r) acc) df []).

Fixpoint insert_by_date (r : Row) (l : list Row) : list Row :=
  match l with
  | [] => [r]
  | r' :: l' =>
      if Timestamp_ltb (date r) (date r') then r :: l
      else r' :: insert_by_date r l'
  end.

(** [group.sort_values('date')] *)
Definition sort_values_date (group : list Row) : list Row :=
  fold_left (fun acc r => insert_by_date r acc) group [].

(** One step of the sum pandas computes for a bin of a float64 column
    ([group_sum]): a NaN entry is skipped; any other value is added with
    Kahan's compensation, and a compensation that has become NaN (after an
    infinity) is reset to [0.0]. *)
Definition group_sum_step (acc : float * float) (val : float)
  : float * float :=
  let '(sumx, compensation) := acc in
  if F64.is_nan val then acc
  else
    let y := F64.sub val compensation in
    let t := F64.add sumx y in
    let compensation := F64.sub (F64.sub t sumx) y in
    (t, if F64.is_nan compensation then F64.zero else compensation).

(** The sum of one bin; an empty bin sums to [0.0] ([min_count] is 0). *)
Definition group_sum (vals : list float) : float :=
  fst (fold_left group_sum_step vals (F64.zero, F64.zero)).

(** [group.set_index('date').resample('M').sum()[['sales']]] on a group
    sorted by date: one point per calendar month from the month of the
    first row to the month of the last row, labelled with the month end and
    holding the sum of the month's sales ([0.0] for a month without rows).
    The ['sales'] column is float64; integer sales below 2^53, as the
    generated table holds, are summed exactly either way. *)
Definition resample_M_sum_sales (group : list Row) : SalesFrame :=
  match group with
  | [] => []
  | r0 :: _ =>
      let first := month_index (date r0) in
      let last_ := month_index (date (last group r0)) in
      map (fun i =>
             (month_end i,
              group_sum
                (map sales
                     (filter (fun r => month_index (date r) =? i) group))))
          (Zrange first (last_ - first + 1))
  end.

(** ** [src/preprocess.py] *)

Definition preprocess_data (df : DataFrame) (group_by : Column) (test_size : Z)
  : dict SalesFrame * dict SalesFrame :=
  fold_left
    (fun (acc : dict SalesFrame * dict SalesFrame) (g : Key * list Row) =>
       let '(train_data, test_data) := acc in
       let '(name, group) := g in
       let group := sort_values_date group in
       let group := resample_M_sum_sales group in
       let train := py_slice None (Some (- test_size)) group in
       let test := py_slice (Some (- test_size)) None group in
       (dict_set train_data name train, dict_set test_data name test))
    (groupby df group_by)
    ([], []).

(** ** [sklearn.metrics]

    Both metrics validate their arguments first and raise [ValueError] on
    inconsistent lengths, on an empty array and on a NaN or an infinity. *)

Definition check_reg_targets (y_true y_pred : ndarray) : result unit :=
  if negb (Nat.eqb (length y_true) (length y_pred)) then Raise ValueError
  else if Nat.eqb (length y_true) 0 then Raise ValueError
  else if negb (forallb F64.is_finite y_true && forallb F64.is_finite y_pred)
  then Raise ValueError
  else Ok tt.

Definition mean_absolute_error (y_true y_pred : ndarray) : result float :=
  _ <- check_reg_targets y_true y_pred ;;
  d <- np_binop F64.sub y_pred y_true ;;
  Ok (np_mean (np_abs d)).

Definition mean_squared_error (y_true y_pred : ndarray) : result float :=
  _ <- check_reg_targets y_true y_pred ;;
  d <- np_binop F64.sub y_true y_pred ;;
  Ok (np_mean (map (fun x => F64.mul x x) d)).

(** ** [src/evaluate.py] *)

Definition calculate_mape (y_true y_pred : ndarray) : result float :=
  d <- np_binop F64.sub y_true y_pred ;;
  q <- np_binop F64.div d y_true ;;
  Ok (F64.mul (np_mean (np_abs q)) (F64.of_Z 100)).

Record Metrics : Type := mkMetrics { MAE : float; RMSE : float; MAPE : float }.

Definition evaluate_forecast (actual predicted : ndarray) : result Metrics :=
  mae <- mean_absolute_error actual predicted ;;
  mse <- mean_squared_error actual predicted ;;
  let rmse := F64.sqrt mse in
  mape <- calculate_mape actual predicted ;;
  Ok (mkMetrics mae rmse mape).

(** A row of the frame Prophet's [predict] returns. *)
Record ProphetRow : Type := mkProphetRow {
  ds : Timestamp;
  yhat : float;
  yhat_lower : float;
  yhat_upper : float
}.

Definition ProphetFrame : Type := list ProphetRow.

Record ComparisonRow : Type := mkComparisonRow {
  Product_Category : Key;
  ARIMA_MAE : float;
  ARIMA_RMSE : float;
  ARIMA_MAPE : float;
  Prophet_MAE : float;
  Prophet_RMSE : float;
  Prophet_MAPE : float
}.

(** The body of the loop of [compare_models] for one key. *)
Definition compare_one (arima_forecasts : dict Series)
    (prophet_forecasts : dict ProphetFrame) (test_data : dict SalesFrame)
    (key : Key) (results : list ComparisonRow) : result (list ComparisonRow) :=
  if dict_mem test_data key then
    test_frame <- dict_item test_data key ;;
    let actual := values test_frame in
    arima_forecast <- dict_item arima_forecasts key ;;
    let arima_pred := values arima_forecast in
    prophet_forecast <- dict_item prophet_forecasts key ;;
    let prophet_pred :=
      py_slice (Some (- Z.of_nat (length arima_pred))) None
               (map yhat prophet_forecast) in
    arima_metrics <- evaluate_forecast actual arima_pred ;;
    prophet_metrics <- evaluate_forecast actual prophet_pred ;;
    Ok (results ++
        [mkComparisonRow key
           (MAE arima_metrics) (RMSE arima_metrics) (MAPE arima_metrics)
           (MAE prophet_metrics) (RMSE prophet_metrics)
           (MAPE prophet_metrics)])
  else Ok results.

Definition compare_models (arima_forecasts : dict Series)
    (prophet_forecasts : dict ProphetFrame) (test_data : dict SalesFrame)
  : result (list ComparisonRow) :=
  for_in (dict_keys arima_forecasts)
         (compare_one arima_forecasts prophet_forecasts test_data)
         [].

(** ** statsmodels

    [adfuller(series)[1]] is the p-value of the augmented Dickey-Fuller
    test, whose null hypothesis is that the series has a unit root (is not
    stationary).  [ARIMA(series, order).fit()] returns a fitted model and
    [model.forecast(steps)] its out-of-sample forecast.  Each call may
    raise. *)

Class Statsmodels : Type := {
  ARIMAResults : Type;
  adfuller : Series -> result float;
  ARIMA_fit : Series -> Z * Z * Z -> result ARIMAResults;
  ARIMAResults_forecast : ARIMAResults -> Z -> result Series
}.

(** ** [src/arima_model.py] *)

Section ArimaModel.

Context {sm : Statsmodels}.

Definition check_stationarity (series : Series) : result bool :=
  p <- adfuller series ;;
  Ok (F64.ltb p F64.c0_05).

(** The loop of [make_stationary], entered with the current [series] and
    [d].  The condition [not check_stationarity(series) and d < max_diff]
    evaluates the test first and the bound only when the test says "not
    stationary".  Each iteration decreases [max_diff - d]. *)
Equations? make_stationary_loop (series : Series) (d max_diff : Z)
  : result (Series * Z) by wf (Z.to_nat (max_diff - d)) lt :=
  make_stationary_loop series d max_diff with check_stationarity series => {
    | Raise e => Raise e
    | Ok true => Ok (series, d)
    | Ok false with Z_lt_dec d max_diff => {
        | left _ =>
            make_stationary_loop (dropna (diff series)) (d + 1) max_diff
        | right _ => Ok (series, d) } }.
Proof. lia. Qed.

Definition make_stationary (series : Series) (max_diff : Z)
  : result (Series * Z) :=
  make_stationary_loop series 0 max_diff.

Definition train_arima (series : Series) (order : Z * Z * Z)
  : result ARIMAResults :=
  ARIMA_fit series order.

Definition forecast_arima (model : ARIMAResults) (steps : Z) : result Series :=
  ARIMAResults_forecast model steps.

(** The body of the loop of [arima_pipeline] up to the assignment
    [forecasts[key] = forecast]; [make_stationary] is called with its
    default [max_diff=2]. *)
Definition arima_forecast_for (df : SalesFrame) (forecast_steps : Z)
  : result Series :=
  let series := df in
  '(stationary_series, d) <- make_stationary series 2 ;;
  let order := (1, d, 1) in
  model <- train_arima stationary_series order ;;
  forecast_arima model forecast_steps.

Definition arima_pipeline (train_data_dict : dict SalesFrame)
    (forecast_steps : Z) : result (dict Series) :=
  for_in train_data_dict
         (fun (item : Key * SalesFrame) (forecasts : dict Series) =>
            let '(key, df) := item in
            forecast <- arima_forecast_for df forecast_steps ;;
            Ok (dict_set forecasts key forecast))
         [].

End ArimaModel.

(** ** Prophet

    [Prophet().fit(df)] takes the frame with columns [ds] and [y];
    [history_dates] are the dates the model was fitted on; [predict]
    returns one row per date of the frame it is given. *)

Class ProphetLib : Type := {
  Prophet : Type;
  Prophet_fit : list (Timestamp * float) -> result Prophet;
  history_dates : Prophet -> list Timestamp;
  Prophet_predict : Prophet -> list Timestamp -> result ProphetFrame
}.

Definition max_date (l : list Timestamp) (default : Timestamp) : Timestamp :=
  fold_left (fun acc t => if Timestamp_ltb acc t then t else acc) l default.

(** ** [src/prophet_model.py] *)

Section ProphetModel.

Context {pl : ProphetLib}.

(** [model.make_future_dataframe(periods, freq='M')], with
    [include_history] at its default [True]: the history dates followed by
    the first [periods] month ends after the last history date.  For
    [periods + 1 <= 0] the range of new dates is empty. *)
Definition make_future_dataframe (model : Prophet) (periods : Z)
  : result (list Timestamp) :=
  match history_dates model with
  | [] => Raise ValueError
  | t0 :: _ =>
      let last_date := max_date (history_dates model) t0 in
      let dates :=
        map month_end (Zrange (month_index last_date) (periods + 1)) in
      let dates := filter (fun t => Timestamp_ltb last_date t) dates in
      let dates := py_slice None (Some periods) dates in
      Ok (history_dates model ++ dates)
  end.

Definition train_prophet (df : SalesFrame) : result Prophet :=
  let df_prophet := df in
  Prophet_fit df_prophet.

Definition forecast_prophet (model : Prophet) (periods : Z)
  : result ProphetFrame :=
  future <- make_future_dataframe model periods ;;
  Prophet_predict model future.

Definition prophet_pipeline (train_data_dict : dict SalesFrame)
    (forecast_steps : Z) : result (dict ProphetFrame) :=
  for_in train_data_dict
         (fun (item : Key * SalesFrame) (forecasts : dict ProphetFrame) =>
            let '(key, df) := item in
            model <- train_prophet df ;;
            forecast <- forecast_prophet model forecast_steps ;;
            Ok (dict_set forecasts key forecast))
         [].

End ProphetModel.

(** ** [src/main.py], steps 2 to 5: preprocess, forecast with both models,
    compare.  The defaults [group_by='product_id'], [test_size=12] and
    [forecast_steps=12] are the ones [main] relies on. *)

Section Main.

Context {sm : Statsmodels} {pl : ProphetLib}.

Definition run_pipeline (df : DataFrame) (group_by : Column)
    (test_size forecast_steps : Z)
  : result (dict Series * dict ProphetFrame * list ComparisonRow) :=
  let '(train_data, test_data) := preprocess_data df group_by test_size in
  arima_forecasts <- arima_pipeline train_data forecast_steps ;;
  prophet_forecasts <- prophet_pipeline train_data forecast_steps ;;
  comparison <- compare_models arima_forecasts prophet_forecasts test_data ;;
  Ok (arima_forecasts, prophet_forecasts, comparison).

End Main.

(** ** numpy.random, [np.sin] and [datetime.strptime]

    The draws of numpy's global generator thread a generator state. *)

Class GeneratorEnv : Type := {
  rng_state : Type;
  np_random_randint : Z -> Z -> rng_state -> result (Z * rng_state);
  np_random_uniform : float -> float -> rng_state -> result (float * rng_state);
  np_random_normal : float -> float -> rng_state -> result (float * rng_state);
  (** [np.random.choice([0, 1], p=[p0, p1])] *)
  np_random_choice_0_1 : float -> float -> rng_state -> result (Z * rng_state);
  np_sin : float -> float;
  (** [datetime.strptime(s, '%Y-%m-%d')] *)
  strptime_Ymd : string -> result Timestamp
}.

(** ** [data/generate_data.py] *)

(** A row of the generated table; [sales] is a Python [int]. *)
Record SalesRecord : Type := mkSalesRecord {
  rec_date : Timestamp;
  rec_product_id : Z;
  rec_category : string;
  rec_sales : Z;
  rec_price : float;
  rec_promotion_flag : Z
}.

(** [int(x)] on a float: truncation, [ValueError] on NaN and
    [OverflowError] on an infinity. *)
Definition py_int (x : float) : result Z :=
  match F64.trunc x with
  | Some z => Ok z
  | None => Raise (if F64.is_nan x then ValueError else OverflowError)
  end.

(** [str(n)] for an integer. *)
Definition str_of_Z (n : Z) : string := NilZero.string_of_int (Z.to_int n).

Section GenerateData.

Context {env : GeneratorEnv}.

Definition Gen (A : Type) : Type := rng_state -> result (A * rng_state).

Definition gen_ret {A} (a : A) : Gen A := fun st => Ok (a, st).

Definition gen_bind {A B} (m : Gen A) (k : A -> Gen B) : Gen B :=
  fun st => match m st with
            | Ok (a, st') => k a st'
            | Raise e => Raise e
            end.

Definition gen_lift {A} (r : result A) : Gen A :=
  fun st => match r with Ok a => Ok (a, st) | Raise e => Raise e end.

Notation "x <~ m ;; k" := (gen_bind m (fun x => k))
  (at level 61, m at next level, right associativity).

Fixpoint gen_for {A S} (xs : list A) (body : A -> S -> Gen S) (s : S) : Gen S :=
  match xs with
  | [] => gen_ret s
  | x :: xs' => s' <~ body x s ;; gen_for xs' body s'
  end.

(** The body of the inner loop, for one month end [date_]. *)
Definition generate_row (start : Timestamp) (product_id_ : Z)
    (category_ : string) (base_sales : Z) (trend seasonality : float)
    (date_ : Timestamp) (data : list SalesRecord) : Gen (list SalesRecord) :=
  let month_ := month date_ in
  let seasonal_factor :=
    F64.add seasonality
      (F64.mul F64.c0_1
         (np_sin (F64.div (F64.mul (F64.mul (F64.of_Z 2) F64.pi)
                                   (F64.of_Z month_))
                          (F64.of_Z 12)))) in
  let time_factor :=
    F64.add (F64.of_Z 1)
      (F64.mul trend
         (F64.div (F64.of_Z (days_between date_ start)) (F64.of_Z 365))) in
  noise <~ np_random_normal (F64.of_Z 0) F64.c0_1 ;;
  promotion <~ np_random_choice_0_1 F64.c0_9 F64.c0_1 ;;
  sales_ <~ gen_lift
    (py_int
       (F64.mul
          (F64.mul
             (F64.mul (F64.mul (F64.of_Z base_sales) seasonal_factor)
                      time_factor)
             (F64.add (F64.of_Z 1) noise))
          (if promotion =? 0 then F64.of_Z 1 else F64.c1_2))) ;;
  price_ <~ np_random_uniform (F64.of_Z 10) (F64.of_Z 500) ;;
  gen_ret (data ++ [mkSalesRecord date_ product_id_ category_
                                  (Z.max 0 sales_) price_ promotion]).

(** The body of the outer loop, for one product. *)
Definition generate_product (start : Timestamp) (dates : list Timestamp)
    (num_categories : Z) (product_id_ : Z) (data : list SalesRecord)
  : Gen (list SalesRecord) :=
  c <~ np_random_randint 1 (num_categories + 1) ;;
  let category_ := ("Category_" ++ str_of_Z c)%string in
  base_sales <~ np_random_randint 100 1000 ;;
  trend <~ np_random_uniform (SFopp F64.c0_05) F64.c0_05 ;;
  seasonality <~ np_random_uniform F64.c0_8 F64.c1_2 ;;
  gen_for dates
          (generate_row start product_id_ category_ base_sales trend
                        seasonality)
          data.

Definition generate_synthetic_sales_data (num_products num_categories : Z)
    (start_date end_date : string) : Gen (list SalesRecord) :=
  start <~ gen_lift (strptime_Ymd start_date) ;;
  end_ <~ gen_lift (strptime_Ymd end_date) ;;
  let dates := pd_date_range_M start end_ in
  gen_for (Zrange 1 num_products)
          (generate_product start dates num_categories)
          [].

End GenerateData.

(** ** Specification vocabulary for the metrics *)

(** The three shapes a rounded value with sign [s] can take. *)
Definition signed_value (s : bool) (x : float) : Prop :=
  x = S754_zero s \/ x = S754_infinity s \/ exists m e, x = S754_finite s m e.

(** The absolute percentage error of one position,
    [abs((y_true - y_pred) / y_true)]. *)
Definition ape (t p : float) : float := F64.abs (F64.div (F64.sub t p) t).

Definition ape_terms (y_true y_pred : ndarray) : ndarray :=
  map (fun tp => ape (fst tp) (snd tp)) (combine y_true y_pred).

(** A value that is NaN, or else not negative. *)
Definition nonneg_or_nan (x : float) : bool := F64.nonneg x || F64.is_nan x.

(** A position where the actual and the predicted value are both zero. *)
Definition both_zero (tp : float * float) : bool :=
  F64.is_zero (fst tp) && F64.is_zero (snd tp).

(** ** Specification vocabulary for the generator *)

(** Every row has a sales value of at least 0. *)
Definition sales_nonneg (data : list SalesRecord) : Prop :=
  Forall (fun r => 0 <= rec_sales r) data.

(** ** Specification vocabulary for the comparison *)

(** [abs(y_pred - y_true)], position by position. *)
Definition abs_errors (y_true y_pred : ndarray) : ndarray :=
  map (fun tp => F64.abs (F64.sub (snd tp) (fst tp))) (combine y_true y_pred).

(** [(y_true - y_pred) ** 2], position by position. *)
Definition squared_errors (y_true y_pred : ndarray) : ndarray :=
  map (fun tp => F64.mul (F64.sub (fst tp) (snd tp))
                         (F64.sub (fst tp) (snd tp)))
      (combine y_true y_pred).

(** The three metrics of two arrays of equal length, over all positions. *)
Definition metrics_of (actual predicted : ndarray) : Metrics :=
  mkMetrics (np_mean (abs_errors actual predicted))
            (F64.sqrt (np_mean (squared_errors actual predicted)))
            (F64.mul (np_mean (ape_terms actual predicted)) F64.c100).

Definition row_of (key : Key) (actual arima_pred prophet_pred : ndarray)
  : ComparisonRow :=
  mkComparisonRow key
    (MAE (metrics_of actual arima_pred))
    (RMSE (metrics_of actual arima_pred))
    (MAPE (metrics_of actual arima_pred))
    (MAE (metrics_of actual prophet_pred))
    (RMSE (metrics_of actual prophet_pred))
    (MAPE (metrics_of actual prophet_pred)).

(** Two arrays the metrics accept: equal non-zero length, finite values. *)
Definition comparable (actual predicted : ndarray) : Prop :=
  length actual = length predicted /\
  predicted <> [] /\
  forallb F64.is_finite actual = true /\
  forallb F64.is_finite predicted = true.

(** The last [n] entries of a list. *)
Definition lastn {A} (n : nat) (l : list A) : list A :=
  skipn (length l - n) l.

Section ComparisonVocabulary.

Variable arima_forecasts : dict Series.
Variable prophet_forecasts : dict ProphetFrame.
Variable test_data : dict SalesFrame.

(** The row [compare_models] computes for [key]. *)
Definition compared (key : Key) (row : ComparisonRow) : Prop :=
  exists test_frame arima_forecast prophet_forecast,
    dict_get test_data key = Some test_frame /\
    dict_get arima_forecasts key = Some arima_forecast /\
    dict_get prophet_forecasts key = Some prophet_forecast /\
    row = row_of key (values test_frame) (values arima_forecast)
                 (lastn (length arima_forecast)
                        (map yhat prophet_forecast)).

(** What makes the comparison of [key] go through. *)
Definition comparable_entity (key : Key) : Prop :=
  forall test_frame arima_forecast,
    dict_get test_data key = Some test_frame ->
    dict_get arima_forecasts key = Some arima_forecast ->
    exists prophet_forecast,
      dict_get prophet_forecasts key = Some prophet_forecast /\
      comparable (values test_frame) (values arima_forecast) /\
      comparable (values test_frame)
                 (lastn (length arima_forecast) (map yhat prophet_forecast)).

End ComparisonVocabulary.

(** ** Specification vocabulary for the preprocessing *)

(** The date-sorted, monthly-resampled sales series of a group. *)
Definition resampled (group : list Row) : SalesFrame :=
  resample_M_sum_sales (sort_values_date group).

(** ** Specification vocabulary for the stationarity loop *)

(** The series after [n] rounds of [series.diff().dropna()]. *)
Definition differenced (n : nat) (series : Series) : Series :=
  Nat.iter n (fun s => dropna (diff s)) series.

(** ** Specification vocabulary for the end-to-end run *)

(** What Prophet guarantees on the dates, for a training frame whose dates
    are increasing and distinct and a frame [future] of increasing dates (as
    the month ends of a resampled series are): a fitted model remembers the
    training dates, and [predict], when it returns, returns one row per
    date of [future], in order.  Nothing is said on whether the fit or the
    prediction returns. *)
Definition prophet_keeps_dates {pl : ProphetLib} (train : Series)
    (future : list Timestamp) : Prop :=
  forall model,
    Prophet_fit train = Ok model ->
    history_dates model = map fst train /\
    forall rows,
      Prophet_predict model future = Ok rows -> map ds rows = future.

(** The body of the loop of [prophet_pipeline] up to the assignment
    [forecasts[key] = forecast]. *)
Definition prophet_forecast_for {pl : ProphetLib} (df : SalesFrame)
    (forecast_steps : Z) : result ProphetFrame :=
  (model <- train_prophet df ;; forecast_prophet model forecast_steps)%py.


(** ** Stand-in libraries for concrete runs

    The statements of Part II hold for every implementation of the library
    interfaces.  To run the scripts on concrete inputs the interfaces are
    instantiated with small deterministic stand-ins. *)

Definition c0_01 : float := S754_finite false 5764607523034235 (-59).
Definition c0_5 : float := S754_finite false 4503599627370496 (-53).

(** A series that ends at the level it started from. *)
Definition returns_to_start (s : Series) : bool :=
  match s with
  | [] => true
  | (_, x0) :: _ => SFeqb x0 (snd (last s (mkTimestamp 0 1 1, x0)))
  end.

(** A unit-root test that reports the p-value 0.01 for a series that
    returns to its starting level and 0.5 for any other series. *)
Definition toy_adfuller (s : Series) : result float :=
  Ok (if returns_to_start s then c0_01 else c0_5).

(** A fit that records the series and the order it is given, and raises on
    a series of fewer than three points. *)
Definition toy_fit (s : Series) (order : Z * Z * Z)
  : result (Series * (Z * Z * Z)) :=
  if (length s <? 3)%nat then Raise LinAlgError else Ok (s, order).

(** A forecast that repeats the last fitted value over the month ends that
    follow the fitted series. *)
Definition toy_forecast (model : Series * (Z * Z * Z)) (steps : Z)
  : result Series :=
  if steps <? 1 then Raise ValueError
  else
    let '(t, x) := last (fst model) (mkTimestamp 0 1 1, F64.zero) in
    Ok (map (fun i => (month_end (month_index t + i), x)) (Zrange 1 steps)).

Definition toy_statsmodels : Statsmodels := {|
  ARIMAResults := Series * (Z * Z * Z);
  adfuller := toy_adfuller;
  ARIMA_fit := toy_fit;
  ARIMAResults_forecast := toy_forecast
|}.

(** A statsmodels whose unit-root test always reports the given p-value. *)
Definition const_statsmodels (p : float) : Statsmodels := {|
  ARIMAResults := Series * (Z * Z * Z);
  adfuller := fun _ => Ok p;
  ARIMA_fit := toy_fit;
  ARIMAResults_forecast := toy_forecast
|}.

(** A unit-root test that refuses an empty or a constant series with
    [ValueError], as statsmodels' [adfuller] does, and reports the p-values
    of [toy_adfuller] otherwise. *)
Definition strict_adfuller (s : Series) : result float :=
  match values s with
  | [] => Raise ValueError
  | x :: rest =>
      if forallb (SFeqb x) rest then Raise ValueError else toy_adfuller s
  end.

Definition strict_statsmodels : Statsmodels := {|
  ARIMAResults := Series * (Z * Z * Z);
  adfuller := strict_adfuller;
  ARIMA_fit := toy_fit;
  ARIMAResults_forecast := toy_forecast
|}.

(** A Prophet that keeps its history and predicts the last observed value
    at every date, with bounds equal to the prediction; it refuses a frame
    of fewer than two rows to fit and an empty frame to predict on. *)
Definition toy_prophet : ProphetLib := {|
  Prophet := Series;
  Prophet_fit := fun df =>
    if (length df <? 2)%nat then Raise ValueError else Ok df;
  history_dates := fun model => map fst model;
  Prophet_predict := fun model future =>
    let x := snd (last model (mkTimestamp 0 1 1, F64.zero)) in
    match future with
    | [] => Raise ValueError
    | _ => Ok (map (fun t => mkProphetRow t x x x) future)
    end
|}.

(** Monthly series starting in January 2023 with the given values. *)
Definition monthly_from (start_index : Z) (xs : list Z) : Series :=
  map (fun ix => (month_end (start_index + fst ix), F64.of_Z (snd ix)))
      (combine (Zrange 0 (Z.of_nat (length xs))) xs).

(** A Prophet frame with the given [yhat] values on consecutive month
    ends. *)
Definition prophet_frame_from (start_index : Z) (xs : list Z) : ProphetFrame :=
  map (fun tx => mkProphetRow (fst tx) (snd tx) (snd tx) (snd tx))
      (monthly_from start_index xs).

Definition jan_2023 : Z := 2023 * 12.

Definition rising_series : Series := monthly_from jan_2023 [10; 20; 30; 40].
Definition short_series : Series := monthly_from jan_2023 [5; 7].
Definition level_series : Series := monthly_from jan_2023 [3; 9; 4; 3].

Definition three_entities : dict SalesFrame :=
  [(KInt 1, rising_series); (KInt 2, short_series); (KInt 3, level_series)].

(** Forecasts and test data of one entity for March and April 2023. *)
Definition two_month_test : dict SalesFrame :=
  [(KInt 1, monthly_from (jan_2023 + 2) [10; 20])].
Definition two_month_arima : dict Series :=
  [(KInt 1, monthly_from (jan_2023 + 2) [11; 19])].
Definition four_month_prophet : dict ProphetFrame :=
  [(KInt 1, prophet_frame_from jan_2023 [9; 10; 12; 18])].

(** An ARIMA forecast one step longer than the test suffix. *)
Definition three_month_arima : dict Series :=
  [(KInt 1, monthly_from (jan_2023 + 2) [11; 19; 25])].
Definition five_month_prophet : dict ProphetFrame :=
  [(KInt 1, prophet_frame_from jan_2023 [9; 10; 12; 18; 24])].

(** A deterministic stand-in for the generator's environment.  The state
    is a counter; integers cycle through their range, [uniform] returns its
    lower bound, [normal] alternates between the mean and the mean minus 2,
    every tenth draw of [choice] is a promotion, [np.sin] is replaced by the
    constant 0 and only two date strings parse. *)
Definition toy_env : GeneratorEnv := {|
  rng_state := Z;
  np_random_randint := fun lo hi st =>
    if lo <? hi then Ok (lo + st mod (hi - lo), st + 1) else Raise ValueError;
  np_random_uniform := fun lo hi st => Ok (lo, st + 1);
  np_random_normal := fun mu sigma st =>
    Ok (if Z.even st then mu else F64.sub mu (F64.of_Z 2), st + 1);
  np_random_choice_0_1 := fun p0 p1 st =>
    Ok (if st mod 10 =? 0 then 1 else 0, st + 1);
  np_sin := fun _ => F64.zero;
  strptime_Ymd := fun s =>
    if String.eqb s "2020-01-01" then Ok (mkTimestamp 2020 1 1)
    else if String.eqb s "2020-03-31" then Ok (mkTimestamp 2020 3 31)
    else Raise ValueError
|}.

(** A table with one product and one row in each of three months. *)
Definition three_month_table : DataFrame :=
  [ mkRow (mkTimestamp 2023 1 15) 1 "Category_1" (F64.of_Z 10) (F64.of_Z 5) 0;
    mkRow (mkTimestamp 2023 2 10) 1 "Category_1" (F64.of_Z 20) (F64.of_Z 5) 0;
    mkRow (mkTimestamp 2023 3 5) 1 "Category_1" (F64.of_Z 30) (F64.of_Z 5) 1 ].

(** A table of one product with one row on the 15th of each of 48
    consecutive months from January 2020, with sales 100, 101, ... *)
Definition table_48 : DataFrame :=
  map (fun i =>
         mkRow (mkTimestamp ((2020 * 12 + i) / 12) ((2020 * 12 + i) mod 12 + 1) 15)
               7 "Category_1" (F64.of_Z (100 + i)) (F64.of_Z 20) 0)
      (Zrange 0 48).

(** A table of one product with one row on the 15th of each of 48
    consecutive months from January 2020, with the same sales, 100, in
    every month. *)
Definition flat_table_48 : DataFrame :=
  map (fun i =>
         mkRow (mkTimestamp ((2020 * 12 + i) / 12) ((2020 * 12 + i) mod 12 + 1) 15)
               7 "Category_1" (F64.of_Z 100) (F64.of_Z 20) 0)
      (Zrange 0 48).

(** A table of one product with one row on the 15th of each of 48
    consecutive months from January 2020, with sales that repeat the
    pattern 100, 103, ..., 118 every seven months. *)
Definition seasonal_table_48 : DataFrame :=
  map (fun i =>
         mkRow (mkTimestamp ((2020 * 12 + i) / 12) ((2020 * 12 + i) mod 12 + 1) 15)
               7 "Category_1" (F64.of_Z (100 + 3 * (i mod 7))) (F64.of_Z 20) 0)
      (Zrange 0 48).

(** A table of two products given out of order: product 2 has rows in
    March and January 2023 (none in February), product 1 has two rows in
    May 2023. *)
Definition two_product_table : DataFrame :=
  [ mkRow (mkTimestamp 2023 3 5) 2 "Category_2" (F64.of_Z 30) (F64.of_Z 5) 0;
    mkRow (mkTimestamp 2023 5 20) 1 "Category_1" (F64.of_Z 7) (F64.of_Z 5) 0;
    mkRow (mkTimestamp 2023 1 15) 2 "Category_2" (F64.of_Z 10) (F64.of_Z 5) 1;
    mkRow (mkTimestamp 2023 5 2) 1 "Category_1" (F64.of_Z 8) (F64.of_Z 5) 0 ].

(** The rows of product 2 in [two_product_table], in table order. *)
Definition product_2_rows : list Row :=
  [ mkRow (mkTimestamp 2023 3 5) 2 "Category_2" (F64.of_Z 30) (F64.of_Z 5) 0;
    mkRow (mkTimestamp 2023 1 15) 2 "Category_2" (F64.of_Z 10) (F64.of_Z 5) 1 ].

(** A row is not dated after another one. *)
Definition date_le (r1 r2 : Row) : Prop :=
  Timestamp_ltb (date r2) (date r1) = false.

(* ===================================================================== *)
(** * Part II: properties                                                *)
(* ===================================================================== *)

Unset Implicit Arguments.

(** ** Rounding never changes the sign and never produces NaN *)

Lemma iter_pos_invariant {A} (P : A -> Prop) (f : A -> A) :
  (forall x, P x -> P (f x)) ->
  forall p x, P x -> P (iter_pos f p x).
Proof.
  intros Hf p. induction p as [p IH | p IH |]; intros x Hx; simpl.
  - apply IH, IH, Hf, Hx.
  - apply IH, IH, Hx.
  - apply Hf, Hx.
Qed.

Lemma shr_1_nonneg mrs : 0 <= shr_m mrs -> 0 <= shr_m (shr_1 mrs).
Proof.
  destruct mrs as [m r s]. simpl.
  destruct m as [| [p | p |] | [p | p |]]; simpl; lia.
Qed.

Lemma shr_nonneg mrs e n :
  0 <= shr_m mrs -> 0 <= shr_m (fst (shr mrs e n)).
Proof.
  intros H. destruct n; simpl; try exact H.
  apply (iter_pos_invariant (fun r => 0 <= shr_m r)); [apply shr_1_nonneg | exact H].
Qed.

Lemma shr_m_of_loc m l : shr_m (shr_record_of_loc m l) = m.
Proof. destruct l as [| []]; reflexivity. Qed.

Lemma shr_fexp_nonneg prec emax m e l :
  0 <= m -> 0 <= shr_m (fst (shr_fexp prec emax m e l)).
Proof.
  intros H. unfold shr_fexp. apply shr_nonneg. rewrite shr_m_of_loc. exact H.
Qed.

Lemma round_nearest_even_nonneg m l : 0 <= m -> 0 <= round_nearest_even m l.
Proof.
  intros H. destruct l as [| []]; simpl; try lia.
  destruct (Z.even m); lia.
Qed.

Lemma binary_round_aux_signed prec emax s m e l :
  0 <= m -> signed_value s (binary_round_aux prec emax s m e l).
Proof.
  intros Hm. unfold binary_round_aux.
  pose proof (shr_fexp_nonneg prec emax m e l Hm) as H1.
  destruct (shr_fexp prec emax m e l) as [mrs' e']. simpl in H1.
  pose proof (shr_fexp_nonneg prec emax
                (round_nearest_even (shr_m mrs') (loc_of_shr_record mrs'))
                e' loc_Exact (round_nearest_even_nonneg _ _ H1)) as H2.
  destruct (shr_fexp prec emax _ e' loc_Exact) as [mrs'' e'']. simpl in H2.
  destruct (shr_m mrs'') as [| p | p].
  - left. reflexivity.
  - destruct (e'' <=? emax - prec).
    + right. right. eauto.
    + right. left. reflexivity.
  - lia.
Qed.

Lemma binary_round_signed prec emax s m e :
  signed_value s (binary_round prec emax s m e).
Proof.
  unfold binary_round.
  destruct (shl_align m e _) as [mz ez].
  apply binary_round_aux_signed. lia.
Qed.

Lemma signed_value_not_nan s x : signed_value s x -> F64.is_nan x = false.
Proof. intros [-> | [-> | (m & e & ->)]]; reflexivity. Qed.

Lemma signed_value_nonneg x : signed_value false x -> F64.nonneg x = true.
Proof. intros [-> | [-> | (m & e & ->)]]; reflexivity. Qed.

Lemma binary_normalize_not_nan prec emax m e sz :
  F64.is_nan (binary_normalize prec emax m e sz) = false.
Proof.
  destruct m; simpl; [reflexivity | |];
    eapply signed_value_not_nan, binary_round_signed.
Qed.

(** ** Integers below 2^53 convert to positive finite floats *)

Lemma digits2_pos_lower m : 2 ^ (Zpos (digits2_pos m) - 1) <= Zpos m.
Proof.
  induction m as [m IH | m IH |]; simpl digits2_pos.
  - rewrite Pos2Z.inj_succ.
    replace (Z.succ (Zpos (digits2_pos m)) - 1)
      with (Z.succ (Zpos (digits2_pos m) - 1)) by lia.
    rewrite Z.pow_succ_r by lia. lia.
  - rewrite Pos2Z.inj_succ.
    replace (Z.succ (Zpos (digits2_pos m)) - 1)
      with (Z.succ (Zpos (digits2_pos m) - 1)) by lia.
    rewrite Z.pow_succ_r by lia. lia.
  - simpl. lia.
Qed.

Lemma digits2_pos_le_53 m : Zpos m < 2 ^ 53 -> Zpos (digits2_pos m) <= 53.
Proof.
  intros H. pose proof (digits2_pos_lower m) as L.
  destruct (Z_le_gt_dec (Zpos (digits2_pos m)) 53) as [|G]; [assumption|].
  exfalso.
  assert (2 ^ 53 <= 2 ^ (Zpos (digits2_pos m) - 1))
    by (apply Z.pow_le_mono_r; lia).
  lia.
Qed.

Lemma digits2_pos_iter_xO m k :
  Zpos (digits2_pos (Pos.iter xO m k)) = Zpos (digits2_pos m) + Zpos k.
Proof.
  induction k as [| k IH] using Pos.peano_ind.
  - simpl. lia.
  - rewrite Pos.iter_succ. simpl digits2_pos.
    rewrite Pos2Z.inj_succ, IH. lia.
Qed.

Lemma binary_round_aux_canonical mz ez :
  Zpos (digits2_pos mz) = 53 -> -1074 <= ez <= 971 ->
  binary_round_aux 53 1024 false (Zpos mz) ez loc_Exact
  = S754_finite false mz ez.
Proof.
  intros Hd He.
  assert (Hs : shr_fexp 53 1024 (Zpos mz) ez loc_Exact
               = (Build_shr_record (Zpos mz) false false, ez)).
  { unfold shr_fexp, fexp, emin. cbn [Zdigits2]. rewrite Hd.
    replace (Z.max (53 + ez - 53) (3 - 1024 - 53) - ez) with 0 by lia.
    reflexivity. }
  unfold binary_round_aux. rewrite Hs.
  cbn [shr_m loc_of_shr_record round_nearest_even]. rewrite Hs.
  cbn [shr_m].
  destruct (ez <=? 1024 - 53) eqn:E; [reflexivity | lia].
Qed.

Lemma of_Z_pos_finite n :
  1 <= n < 2 ^ 53 -> exists m e, F64.of_Z n = S754_finite false m e.
Proof.
  intros [Hlo Hhi]. destruct n as [| m | m]; try lia.
  pose proof (digits2_pos_le_53 m Hhi) as Hd.
  unfold F64.of_Z, binary_normalize, binary_round, F64.prec, F64.emax.
  unfold fexp, emin, shl_align.
  replace (Z.max (Zpos (digits2_pos m) + 0 - 53) (3 - 1024 - 53) - 0)
    with (Zpos (digits2_pos m) - 53) by lia.
  destruct (Zpos (digits2_pos m) - 53) as [| k | k] eqn:Hk; try lia.
  - do 2 eexists. apply binary_round_aux_canonical; lia.
  - do 2 eexists.
    replace (Z.max (Zpos (digits2_pos m) + 0 - 53) (3 - 1024 - 53))
      with (Zpos (digits2_pos m) - 53) by lia.
    apply binary_round_aux_canonical.
    + rewrite digits2_pos_iter_xO. lia.
    + lia.
Qed.

(** ** Arithmetic on special values *)

Lemma sub_diag_finite x : F64.is_finite x = true -> F64.sub x x = F64.zero.
Proof.
  destruct x as [s | s | | s m e]; simpl; try discriminate; intros _.
  - destruct s; reflexivity.
  - unfold F64.sub, SFsub. rewrite Z.sub_diag. reflexivity.
Qed.

Lemma sub_finite_not_nan x y :
  F64.is_finite x = true -> F64.is_finite y = true ->
  F64.is_nan (F64.sub x y) = false.
Proof.
  destruct x as [sx | sx | | sx mx ex], y as [sy | sy | | sy my ey];
    simpl; try discriminate; intros _ _.
  - destruct sx, sy; reflexivity.
  - reflexivity.
  - reflexivity.
  - unfold F64.sub, SFsub. apply binary_normalize_not_nan.
Qed.

Lemma add_nonneg x y :
  F64.nonneg x = true -> F64.nonneg y = true -> F64.nonneg (F64.add x y) = true.
Proof.
  destruct x as [[] | [] | | [] mx ex], y as [[] | [] | | [] my ey];
    simpl; try discriminate; intros _ _; try reflexivity.
  apply signed_value_nonneg, binary_round_signed.
Qed.

Lemma add_nan_r x : F64.add x F64.nan = F64.nan.
Proof. destruct x; reflexivity. Qed.

Lemma add_inf_l y : F64.nonneg y = true -> F64.add F64.inf y = F64.inf.
Proof. destruct y as [[] | [] | | [] m e]; simpl; try discriminate; reflexivity. Qed.

Lemma add_inf_r x : F64.nonneg x = true -> F64.add x F64.inf = F64.inf.
Proof. destruct x as [[] | [] | | [] m e]; simpl; try discriminate; reflexivity. Qed.

Lemma add_zero_zero : F64.add F64.zero F64.zero = F64.zero.
Proof. reflexivity. Qed.

Lemma mul_sign_nonneg x y :
  F64.nonneg x = true -> F64.nonneg y = true ->
  F64.is_nan (F64.mul x y) = false -> F64.nonneg (F64.mul x y) = true.
Proof.
  destruct x as [[] | [] | | [] mx ex], y as [[] | [] | | [] my ey];
    simpl; try discriminate; intros _ _; try reflexivity.
  intros _. unfold F64.mul, SFmul. cbn [xorb].
  apply signed_value_nonneg, binary_round_aux_signed. lia.
Qed.

Lemma div_by_pos_finite_nonneg x m e :
  F64.nonneg x = true ->
  F64.nonneg (F64.div x (S754_finite false m e)) = true.
Proof.
  destruct x as [[] | [] | | [] mx ex]; simpl; try discriminate; intros _;
    try reflexivity.
  unfold F64.div, SFdiv. cbn [xorb].
  unfold SFdiv_core_binary.
  destruct (Z.div_eucl _ (Zpos m)) as [q r] eqn:E.
  apply signed_value_nonneg, binary_round_aux_signed.
  match type of E with
  | Z.div_eucl ?a ?b = _ =>
      pose proof (Z.div_eucl_eq a b ltac:(lia)) as Heq;
      pose proof (Z.mod_pos_bound a b ltac:(lia)) as Hmod;
      assert (Ha : 0 <= a)
  end.
  { destruct (ex - e - _); try lia. apply Z.shiftl_nonneg. lia. }
  unfold Z.modulo in Hmod. rewrite E in Heq, Hmod. nia.
Qed.

Lemma sqrt_nonneg x : F64.nonneg x = true -> F64.nonneg (F64.sqrt x) = true.
Proof.
  destruct x as [[] | [] | | [] mx ex]; simpl; try discriminate; intros _;
    try reflexivity.
  unfold F64.sqrt, SFsqrt, SFsqrt_core_binary.
  destruct (Z.sqrtrem _) as [q r] eqn:E.
  apply signed_value_nonneg, binary_round_aux_signed.
  match type of E with
  | Z.sqrtrem ?a = _ =>
      pose proof (Z.sqrtrem_sqrt a) as Hs; rewrite E in Hs; simpl in Hs
  end.
  subst q. apply Z.sqrt_nonneg.
Qed.

Lemma div_finite_signed sx mx ex sy my ey :
  signed_value (xorb sx sy)
    (F64.div (S754_finite sx mx ex) (S754_finite sy my ey)).
Proof.
  unfold F64.div, SFdiv, SFdiv_core_binary.
  destruct (Z.div_eucl _ (Zpos my)) as [q r] eqn:E.
  apply binary_round_aux_signed.
  match type of E with
  | Z.div_eucl ?a ?b = _ =>
      pose proof (Z.div_eucl_eq a b ltac:(lia)) as Heq;
      pose proof (Z.mod_pos_bound a b ltac:(lia)) as Hmod;
      assert (Ha : 0 <= a)
  end.
  { destruct (ex - ey - _); try lia. apply Z.shiftl_nonneg. lia. }
  unfold Z.modulo in Hmod. rewrite E in Heq, Hmod. nia.
Qed.

Lemma div_by_finite_not_nan x s m e :
  F64.is_nan x = false -> F64.is_nan (F64.div x (S754_finite s m e)) = false.
Proof.
  destruct x as [sx | sx | | sx mx ex]; simpl; try discriminate; intros _;
    try reflexivity.
  eapply signed_value_not_nan, div_finite_signed.
Qed.

Lemma abs_nonneg x : F64.is_nan x = false -> F64.nonneg (F64.abs x) = true.
Proof. destruct x; simpl; try discriminate; reflexivity. Qed.

Lemma abs_nan_iff x : F64.is_nan (F64.abs x) = F64.is_nan x.
Proof. destruct x; reflexivity. Qed.

(** ** The absolute percentage error of one position *)

Lemma ape_nan t p :
  F64.is_finite t = true -> F64.is_finite p = true ->
  F64.is_nan (ape t p) = F64.is_zero t && F64.is_zero p.
Proof.
  intros Ht Hp. unfold ape. rewrite abs_nan_iff.
  destruct t as [st | st | | st mt et]; simpl in Ht; try discriminate.
  - destruct p as [sp | sp | | sp mp ep]; simpl in Hp; try discriminate.
    + destruct st, sp; reflexivity.
    + reflexivity.
  - cbn [F64.is_zero andb].
    apply div_by_finite_not_nan, sub_finite_not_nan; [reflexivity | assumption].
Qed.

Lemma ape_nonneg_or_nan t p :
  F64.is_finite t = true -> F64.is_finite p = true ->
  nonneg_or_nan (ape t p) = true.
Proof.
  intros Ht Hp. unfold nonneg_or_nan.
  destruct (F64.is_nan (ape t p)) eqn:E; [apply orb_true_r|].
  unfold ape in *. rewrite abs_nan_iff in E. rewrite abs_nonneg by exact E.
  reflexivity.
Qed.

Lemma ape_zero_actual t p :
  F64.is_zero t = true -> F64.is_nonzero_number p = true ->
  ape t p = F64.inf.
Proof.
  destruct t as [st | | |]; simpl; try discriminate; intros _.
  destruct p as [| | | sp mp ep]; simpl; try discriminate; intros _.
  reflexivity.
Qed.

Lemma ape_diag t : F64.is_nonzero_number t = true -> ape t t = F64.zero.
Proof.
  destruct t as [| | | s m e]; simpl; try discriminate; intros _.
  unfold ape. rewrite sub_diag_finite by reflexivity. reflexivity.
Qed.

(** ** Sums of values that are NaN or not negative *)

Lemma fold_add_nan l : fold_left F64.add l F64.nan = F64.nan.
Proof. induction l as [| x l IH]; simpl; [reflexivity | exact IH]. Qed.

Lemma fold_add_nan_iff l : forall acc,
  forallb nonneg_or_nan l = true -> nonneg_or_nan acc = true ->
  F64.is_nan (fold_left F64.add l acc)
  = F64.is_nan acc || existsb F64.is_nan l.
Proof.
  induction l as [| x l IH]; intros acc Hl Hacc; simpl.
  - rewrite orb_false_r. reflexivity.
  - simpl in Hl. apply andb_true_iff in Hl as [Hx Hl].
    destruct (F64.is_nan acc) eqn:Ea.
    { destruct acc; try discriminate. change (SFadd F64.prec F64.emax S754_nan x)
        with F64.nan. rewrite fold_add_nan. reflexivity. }
    destruct (F64.is_nan x) eqn:Ex.
    { destruct x; try discriminate. rewrite add_nan_r, fold_add_nan.
      reflexivity. }
    unfold nonneg_or_nan in Hx, Hacc. rewrite Ex in Hx. rewrite Ea in Hacc.
    rewrite orb_false_r in Hx, Hacc.
    pose proof (add_nonneg acc x Hacc Hx) as Hs.
    rewrite IH; [| exact Hl | unfold nonneg_or_nan; rewrite Hs; reflexivity].
    destruct (F64.add acc x); try discriminate; reflexivity.
Qed.

Lemma fold_add_nonneg l : forall acc,
  forallb F64.nonneg l = true -> F64.nonneg acc = true ->
  F64.nonneg (fold_left F64.add l acc) = true.
Proof.
  induction l as [| x l IH]; intros acc Hl Hacc; simpl; [exact Hacc|].
  simpl in Hl. apply andb_true_iff in Hl as [Hx Hl].
  apply IH; [exact Hl | apply add_nonneg; assumption].
Qed.

Lemma fold_add_inf_acc l :
  forallb F64.nonneg l = true -> fold_left F64.add l F64.inf = F64.inf.
Proof.
  induction l as [| x l IH]; intros Hl; cbn [fold_left]; [reflexivity|].
  simpl in Hl. apply andb_true_iff in Hl as [Hx Hl].
  rewrite add_inf_l by exact Hx. apply IH, Hl.
Qed.

Lemma fold_add_inf l : forall acc,
  forallb F64.nonneg l = true -> F64.nonneg acc = true ->
  In F64.inf l -> fold_left F64.add l acc = F64.inf.
Proof.
  induction l as [| x l IH]; intros acc Hl Hacc Hin; [destruct Hin|].
  simpl in Hl. apply andb_true_iff in Hl as [Hx Hl]. cbn [fold_left].
  destruct Hin as [-> | Hin].
  - rewrite add_inf_r by exact Hacc. apply fold_add_inf_acc, Hl.
  - apply IH; [exact Hl | apply add_nonneg; assumption | exact Hin].
Qed.

Lemma fold_add_zeros l :
  Forall (fun x => x = F64.zero) l -> fold_left F64.add l F64.zero = F64.zero.
Proof.
  induction 1 as [| x l Hx _ IH]; cbn [fold_left]; [reflexivity|].
  subst x. rewrite add_zero_zero. exact IH.
Qed.

(** ** Division by a count and scaling by 100 *)

Lemma div_by_finite_nan_iff x s m e :
  F64.is_nan (F64.div x (S754_finite s m e)) = F64.is_nan x.
Proof.
  destruct (F64.is_nan x) eqn:E.
  - destruct x; try discriminate. reflexivity.
  - apply div_by_finite_not_nan, E.
Qed.

Lemma of_Z_100 : F64.of_Z 100 = F64.c100.
Proof. vm_compute. reflexivity. Qed.

Lemma mul_c100_nan_iff x : F64.is_nan (F64.mul x F64.c100) = F64.is_nan x.
Proof.
  destruct x as [s | s | | s m e]; try reflexivity.
  eapply signed_value_not_nan.
  unfold F64.mul, F64.c100, SFmul. apply binary_round_aux_signed. lia.
Qed.

Lemma mul_c100_nonneg x :
  F64.nonneg x = true -> F64.nonneg (F64.mul x F64.c100) = true.
Proof.
  intros H. apply mul_sign_nonneg; [exact H | reflexivity |].
  rewrite mul_c100_nan_iff. destruct x; try discriminate; reflexivity.
Qed.

(** ** [np.mean] of an array of at most 2^53 elements *)

Section Mean.

Variable a : ndarray.
Hypothesis len_pos : 1 <= Z.of_nat (length a).
Hypothesis len_small : Z.of_nat (length a) < 2 ^ 53.

Lemma np_mean_nan :
  forallb nonneg_or_nan a = true ->
  F64.is_nan (np_mean a) = existsb F64.is_nan a.
Proof.
  intros H. unfold np_mean.
  destruct (of_Z_pos_finite _ (conj len_pos len_small)) as (m & e & ->).
  rewrite div_by_finite_nan_iff. unfold np_sum.
  rewrite fold_add_nan_iff by (exact H || reflexivity). reflexivity.
Qed.

Lemma np_mean_nonneg :
  forallb F64.nonneg a = true -> F64.nonneg (np_mean a) = true.
Proof.
  intros H. unfold np_mean.
  destruct (of_Z_pos_finite _ (conj len_pos len_small)) as (m & e & ->).
  apply div_by_pos_finite_nonneg, fold_add_nonneg; [exact H | reflexivity].
Qed.

Lemma np_mean_inf :
  forallb F64.nonneg a = true -> In F64.inf a -> np_mean a = F64.inf.
Proof.
  intros H Hin. unfold np_mean.
  destruct (of_Z_pos_finite _ (conj len_pos len_small)) as (m & e & ->).
  unfold np_sum. rewrite fold_add_inf by (assumption || reflexivity).
  reflexivity.
Qed.

Lemma np_mean_zeros :
  Forall (fun x => x = F64.zero) a -> np_mean a = F64.zero.
Proof.
  intros H. unfold np_mean.
  destruct (of_Z_pos_finite _ (conj len_pos len_small)) as (m & e & ->).
  unfold np_sum. rewrite fold_add_zeros by exact H. reflexivity.
Qed.

End Mean.

(** ** [calculate_mape] on arrays of equal length *)

Lemma np_binop_same_length op a b :
  length a = length b ->
  np_binop op a b = Ok (map (fun xy => op (fst xy) (snd xy)) (combine a b)).
Proof.
  intros H. unfold np_binop. rewrite H, Nat.eqb_refl. reflexivity.
Qed.

Lemma ape_terms_unfold y_true : forall y_pred,
  np_abs (map (fun xy => F64.div (fst xy) (snd xy))
              (combine (map (fun xy => F64.sub (fst xy) (snd xy))
                            (combine y_true y_pred))
                       y_true))
  = ape_terms y_true y_pred.
Proof.
  unfold ape_terms, np_abs.
  induction y_true as [| t ts IH]; intros [| p ps]; try reflexivity.
  cbn [combine map fst snd]. rewrite IH. reflexivity.
Qed.

Lemma ape_terms_length y_true y_pred :
  length y_true = length y_pred ->
  length (ape_terms y_true y_pred) = length y_true.
Proof.
  intros H. unfold ape_terms. rewrite length_map, length_combine. lia.
Qed.

Lemma calculate_mape_eq y_true y_pred :
  length y_true = length y_pred ->
  calculate_mape y_true y_pred
  = Ok (F64.mul (np_mean (ape_terms y_true y_pred)) F64.c100).
Proof.
  intros H. unfold calculate_mape.
  rewrite np_binop_same_length by exact H. cbn [bind].
  rewrite np_binop_same_length
    by (rewrite length_map, length_combine; lia).
  cbn [bind]. rewrite ape_terms_unfold, of_Z_100. reflexivity.
Qed.

Lemma ape_terms_nonneg_or_nan y_true : forall y_pred,
  forallb F64.is_finite y_true = true ->
  forallb F64.is_finite y_pred = true ->
  forallb nonneg_or_nan (ape_terms y_true y_pred) = true.
Proof.
  unfold ape_terms.
  induction y_true as [| t ts IH]; intros [| p ps] Ht Hp; try reflexivity.
  cbn [forallb] in Ht, Hp.
  apply andb_true_iff in Ht as [Ht Hts]. apply andb_true_iff in Hp as [Hp Hps].
  cbn [combine map forallb fst snd].
  rewrite ape_nonneg_or_nan by assumption. apply IH; assumption.
Qed.

Lemma ape_terms_nan y_true : forall y_pred,
  forallb F64.is_finite y_true = true ->
  forallb F64.is_finite y_pred = true ->
  existsb F64.is_nan (ape_terms y_true y_pred)
  = existsb both_zero (combine y_true y_pred).
Proof.
  unfold ape_terms.
  induction y_true as [| t ts IH]; intros [| p ps] Ht Hp; try reflexivity.
  cbn [forallb] in Ht, Hp.
  apply andb_true_iff in Ht as [Ht Hts]. apply andb_true_iff in Hp as [Hp Hps].
  cbn [combine map existsb fst snd].
  rewrite ape_nan by assumption. rewrite IH by assumption. reflexivity.
Qed.

Lemma ape_terms_inf y_true : forall y_pred,
  length y_true = length y_pred ->
  forallb F64.is_finite y_pred = true ->
  existsb F64.is_zero y_true = true ->
  existsb both_zero (combine y_true y_pred) = false ->
  In F64.inf (ape_terms y_true y_pred).
Proof.
  unfold ape_terms.
  induction y_true as [| t ts IH]; intros [| p ps] Hlen Hp Hz Hb;
    try discriminate.
  cbn [forallb] in Hp. apply andb_true_iff in Hp as [Hp Hps].
  cbn [combine existsb] in Hb, Hz |- *.
  apply orb_false_iff in Hb as [Hb Hbs].
  cbn [map fst snd].
  apply orb_true_iff in Hz as [Hz | Hz].
  - left. apply ape_zero_actual; [exact Hz|].
    unfold both_zero in Hb. cbn [fst snd] in Hb. rewrite Hz in Hb.
    destruct p; simpl in *; congruence.
  - right. apply IH; try assumption. simpl in Hlen. lia.
Qed.

Lemma nonneg_or_nan_no_nan l :
  forallb nonneg_or_nan l = true -> existsb F64.is_nan l = false ->
  forallb F64.nonneg l = true.
Proof.
  induction l as [| x l IH]; intros H N; [reflexivity|].
  cbn [forallb existsb] in *.
  apply andb_true_iff in H as [Hx H]. apply orb_false_iff in N as [Nx N].
  unfold nonneg_or_nan in Hx. rewrite Nx, orb_false_r in Hx.
  rewrite Hx. apply IH; assumption.
Qed.

Lemma existsb_length_pos {A} (f : A -> bool) l :
  existsb f l = true -> 1 <= Z.of_nat (length l).
Proof. destruct l; simpl; [discriminate | lia]. Qed.

(** ** Claims on [calculate_mape] *)

(** C5, counterexample.  With the actual value 0.0 and the predicted value
    1.0 the two one-element arrays have equal length and the actual value
    is zero, [calculate_mape] does not raise, and its result is +infinity,
    which is not NaN. *)
Lemma calculate_mape_zero_actual_is_inf :
  length [F64.zero] = length [F64.c1] /\
  existsb F64.is_zero [F64.zero] = true /\
  calculate_mape [F64.zero] [F64.c1] = Ok F64.inf /\
  ~ (exists v, calculate_mape [F64.zero] [F64.c1] = Ok v /\
               F64.is_nan v = true).
Proof.
  repeat split.
  intros (v & Hv & Hn).
  change (calculate_mape [F64.zero] [F64.c1]) with (Ok F64.inf) in Hv.
  injection Hv as <-. discriminate Hn.
Qed.

(** C5, amended.  For arrays of equal length (below 2^53, as every numpy
    array is) holding finite values, among which some actual value is zero,
    [calculate_mape] does not raise; its result is NaN or +infinity, and it
    is NaN exactly when at some position the actual and the predicted value
    are both zero. *)
Theorem calculate_mape_zero_actual (y_true y_pred : ndarray) :
  length y_true = length y_pred ->
  Z.of_nat (length y_true) < 2 ^ 53 ->
  forallb F64.is_finite y_true = true ->
  forallb F64.is_finite y_pred = true ->
  existsb F64.is_zero y_true = true ->
  exists v,
    calculate_mape y_true y_pred = Ok v /\
    (v = F64.nan \/ v = F64.inf) /\
    (v = F64.nan <-> existsb both_zero (combine y_true y_pred) = true).
Proof.
  intros Hlen Hsmall Ht Hp Hz.
  rewrite calculate_mape_eq by exact Hlen.
  eexists. split; [reflexivity|].
  pose proof (ape_terms_nonneg_or_nan y_true y_pred Ht Hp) as Hnn.
  pose proof (ape_terms_nan y_true y_pred Ht Hp) as Hnan.
  assert (Hl1 : 1 <= Z.of_nat (length (ape_terms y_true y_pred)))
    by (rewrite ape_terms_length by exact Hlen;
        eapply existsb_length_pos, Hz).
  assert (Hl2 : Z.of_nat (length (ape_terms y_true y_pred)) < 2 ^ 53)
    by (rewrite ape_terms_length by exact Hlen; exact Hsmall).
  pose proof (np_mean_nan _ Hl1 Hl2 Hnn) as Hm. rewrite Hnan in Hm.
  destruct (existsb both_zero (combine y_true y_pred)) eqn:Eb.
  - destruct (np_mean (ape_terms y_true y_pred)); try discriminate.
    split; [left; reflexivity | split; reflexivity].
  - rewrite np_mean_inf; try assumption.
    + split; [right; reflexivity | split; discriminate].
    + apply nonneg_or_nan_no_nan; [exact Hnn | rewrite Hnan; reflexivity].
    + apply ape_terms_inf; assumption.
Qed.

Lemma calculate_mape_zero_actual_witness :
  exists v,
    calculate_mape [F64.zero; F64.c1] [F64.c1; F64.c1] = Ok v /\
    (v = F64.nan \/ v = F64.inf) /\
    (v = F64.nan <->
     existsb both_zero (combine [F64.zero; F64.c1] [F64.c1; F64.c1]) = true).
Proof.
  apply (calculate_mape_zero_actual [F64.zero; F64.c1] [F64.c1; F64.c1]);
    reflexivity.
Defined.

(** C10.  For every non-empty array [y] of non-zero (finite) numbers,
    [calculate_mape y y] returns 0.0. *)
Theorem calculate_mape_identical (y : ndarray) :
  y <> [] ->
  Z.of_nat (length y) < 2 ^ 53 ->
  forallb F64.is_nonzero_number y = true ->
  calculate_mape y y = Ok F64.zero.
Proof.
  intros Hne Hsmall Hnz.
  rewrite calculate_mape_eq by reflexivity.
  assert (Hz : Forall (fun x => x = F64.zero) (ape_terms y y)).
  { clear Hne Hsmall. unfold ape_terms.
    induction y as [| t ts IH]; [constructor|].
    cbn [forallb] in Hnz. apply andb_true_iff in Hnz as [Ht Hts].
    cbn [combine map fst snd]. constructor; [apply ape_diag, Ht | apply IH, Hts]. }
  rewrite np_mean_zeros; try exact Hz.
  - reflexivity.
  - rewrite ape_terms_length by reflexivity. destruct y; [congruence | simpl; lia].
  - rewrite ape_terms_length by reflexivity. exact Hsmall.
Qed.

Lemma calculate_mape_identical_witness :
  calculate_mape [F64.c100; F64.c1_2; SFopp F64.c0_05]
                 [F64.c100; F64.c1_2; SFopp F64.c0_05]
  = Ok F64.zero.
Proof.
  apply (calculate_mape_identical [F64.c100; F64.c1_2; SFopp F64.c0_05]);
    [discriminate | reflexivity | reflexivity].
Defined.

(** ** Slices, dictionaries and loops *)

Lemma slice_bound_range n i : 0 <= n -> 0 <= slice_bound n i <= n.
Proof. intros H. unfold slice_bound. destruct (i <? 0) eqn:E; lia. Qed.

Lemma py_slice_split {A} (l : list A) (i : Z) :
  py_slice None (Some i) l
  = firstn (Z.to_nat (slice_bound (Z.of_nat (length l)) i)) l /\
  py_slice (Some i) None l
  = skipn (Z.to_nat (slice_bound (Z.of_nat (length l)) i)) l.
Proof.
  pose proof (slice_bound_range (Z.of_nat (length l)) i ltac:(lia)) as Hb.
  unfold py_slice. split.
  - rewrite Z.sub_0_r. reflexivity.
  - apply firstn_all2. rewrite length_skipn. lia.
Qed.

Lemma py_slice_tail_positive {A} (l : list A) (k : Z) :
  0 < k ->
  py_slice (Some (- k)) None l = skipn (length l - Z.to_nat k) l.
Proof.
  intros Hk. rewrite (proj2 (py_slice_split l (- k))).
  f_equal. unfold slice_bound.
  destruct (- k <? 0) eqn:E; lia.
Qed.

Lemma py_slice_head_positive {A} (l : list A) (k : Z) :
  0 < k ->
  py_slice None (Some (- k)) l = firstn (length l - Z.to_nat k) l.
Proof.
  intros Hk. rewrite (proj1 (py_slice_split l (- k))).
  f_equal. unfold slice_bound.
  destruct (- k <? 0) eqn:E; lia.
Qed.

Lemma Key_eqb_eq a b : Key_eqb a b = true <-> a = b.
Proof. unfold Key_eqb. destruct (Key_eq_dec a b); split; congruence. Qed.

Lemma Key_eqb_refl a : Key_eqb a a = true.
Proof. apply Key_eqb_eq. reflexivity. Qed.

Lemma Key_eqb_neq a b : a <> b -> Key_eqb a b = false.
Proof. unfold Key_eqb. destruct (Key_eq_dec a b); congruence. Qed.

Lemma dict_set_fresh {V} (d : dict V) k v :
  ~ In k (dict_keys d) -> dict_set d k v = d ++ [(k, v)].
Proof.
  induction d as [| [k' v'] d IH]; intros H; [reflexivity|].
  simpl in *. rewrite Key_eqb_neq by (intros ->; tauto).
  rewrite IH by tauto. reflexivity.
Qed.

Lemma dict_get_map {A V} (f : A -> V) (l : list (Key * A)) k a :
  NoDup (map fst l) -> In (k, a) l ->
  dict_get (map (fun g => (fst g, f (snd g))) l) k = Some (f a).
Proof.
  induction l as [| [k' a'] l IH]; intros Hnd Hin; [destruct Hin|].
  simpl in *. inversion Hnd as [| ? ? Hnotin Hnd']; subst.
  destruct Hin as [Heq | Hin].
  - injection Heq as -> ->. rewrite Key_eqb_refl. reflexivity.
  - rewrite Key_eqb_neq.
    + apply IH; assumption.
    + intros ->. apply Hnotin. apply (in_map fst) in Hin. exact Hin.
Qed.

(** ** Grouping yields pairwise distinct keys *)

Lemma insert_sorted_in k l x : In x (insert_sorted k l) <-> x = k \/ In x l.
Proof.
  induction l as [| k' l IH]; simpl.
  - intuition.
  - destruct (Key_leb k k'); simpl; [intuition | rewrite IH; intuition].
Qed.

Lemma insert_sorted_NoDup k l :
  NoDup l -> ~ In k l -> NoDup (insert_sorted k l).
Proof.
  induction l as [| k' l IH]; intros Hnd Hk; simpl.
  - constructor; [intros [] | constructor].
  - destruct (Key_leb k k'); [constructor; assumption|].
    inversion Hnd as [| ? ? Hk' Hnd']; subst.
    constructor.
    + rewrite insert_sorted_in. simpl in Hk. intuition.
    + apply IH; [assumption | simpl in Hk; tauto].
Qed.

Lemma insert_key_NoDup k l : NoDup l -> NoDup (insert_key k l).
Proof.
  intros H. unfold insert_key.
  destruct (existsb (Key_eqb k) l) eqn:E; [exact H|].
  apply insert_sorted_NoDup; [exact H|].
  intros Hin. assert (existsb (Key_eqb k) l = true); [|congruence].
  apply existsb_exists. exists k. split; [exact Hin | apply Key_eqb_refl].
Qed.

Lemma groupby_NoDup df c : NoDup (map fst (groupby df c)).
Proof.
  unfold groupby. rewrite map_map. cbn [fst]. rewrite map_id.
  assert (G : forall acc, NoDup acc ->
              NoDup (fold_left (fun acc r => insert_key (key_of c r) acc) df acc)).
  { induction df as [| r df IH]; intros acc Hacc; simpl; [exact Hacc|].
    apply IH, insert_key_NoDup, Hacc. }
  apply G. constructor.
Qed.

(** ** [preprocess_data] *)

Lemma preprocess_fold K (gs : list (Key * list Row)) :
  forall (tr te : dict SalesFrame),
  NoDup (dict_keys tr ++ map fst gs) -> dict_keys te = dict_keys tr ->
  fold_left
    (fun (acc : dict SalesFrame * dict SalesFrame) (g : Key * list Row) =>
       let '(train_data, test_data) := acc in
       let '(name, group) := g in
       let group := sort_values_date group in
       let group := resample_M_sum_sales group in
       let train := py_slice None (Some (- K)) group in
       let test := py_slice (Some (- K)) None group in
       (dict_set train_data name train, dict_set test_data name test))
    gs (tr, te)
  = (tr ++ map (fun g => (fst g, py_slice None (Some (- K)) (resampled (snd g)))) gs,
     te ++ map (fun g => (fst g, py_slice (Some (- K)) None (resampled (snd g)))) gs).
Proof.
  induction gs as [| [name group] gs IH]; intros tr te Hnd Hk.
  - simpl. rewrite !app_nil_r. reflexivity.
  - cbn [fold_left].
    assert (Hfresh : ~ In name (dict_keys tr)).
    { intros Hin. apply NoDup_remove_2 in Hnd. apply Hnd.
      apply in_or_app. left. exact Hin. }
    rewrite (dict_set_fresh tr) by exact Hfresh.
    rewrite (dict_set_fresh te) by (rewrite Hk; exact Hfresh).
    rewrite IH.
    + rewrite <- !app_assoc. reflexivity.
    + unfold dict_keys in *. rewrite map_app. cbn [map fst].
      rewrite <- app_assoc. exact Hnd.
    + unfold dict_keys in *. rewrite !map_app, Hk. reflexivity.
Qed.

Lemma preprocess_data_eq df c K :
  preprocess_data df c K
  = (map (fun g => (fst g, py_slice None (Some (- K)) (resampled (snd g))))
         (groupby df c),
     map (fun g => (fst g, py_slice (Some (- K)) None (resampled (snd g))))
         (groupby df c)).
Proof.
  unfold preprocess_data. rewrite preprocess_fold; [reflexivity | | reflexivity].
  apply groupby_NoDup.
Qed.

(** X14.  For every group and every [test_size], also zero, negative or
    larger than the series, the two parts are a prefix and the complementary
    suffix of the resampled series: no point is lost or duplicated. *)
Lemma preprocess_data_partition df c K name group :
  In (name, group) (groupby df c) ->
  exists train test,
    dict_get (fst (preprocess_data df c K)) name = Some train /\
    dict_get (snd (preprocess_data df c K)) name = Some test /\
    train ++ test = resampled group /\
    (length train + length test = length (resampled group))%nat.
Proof.
  intros Hin. rewrite preprocess_data_eq. cbn [fst snd].
  pose proof (groupby_NoDup df c) as Hnd.
  pose proof (dict_get_map (fun g => py_slice None (Some (- K)) (resampled g))
                _ name group Hnd Hin) as Htrain.
  pose proof (dict_get_map (fun g => py_slice (Some (- K)) None (resampled g))
                _ name group Hnd Hin) as Htest.
  cbv beta in Htrain, Htest.
  do 2 eexists. split; [exact Htrain|]. split; [exact Htest|].
  destruct (py_slice_split (resampled group) (- K)) as [-> ->].
  rewrite <- length_app, firstn_skipn. split; reflexivity.
Qed.

(** X15.  For a positive [test_size] the training part is all but the last
    [test_size] points and the test part is the last [test_size] points. *)
Lemma preprocess_data_split df c K name group :
  0 < K ->
  In (name, group) (groupby df c) ->
  dict_get (fst (preprocess_data df c K)) name
  = Some (firstn (length (resampled group) - Z.to_nat K) (resampled group)) /\
  dict_get (snd (preprocess_data df c K)) name
  = Some (skipn (length (resampled group) - Z.to_nat K) (resampled group)).
Proof.
  intros HK Hin. rewrite preprocess_data_eq. cbn [fst snd].
  pose proof (groupby_NoDup df c) as Hnd.
  pose proof (dict_get_map (fun g => py_slice None (Some (- K)) (resampled g))
                _ name group Hnd Hin) as Htrain.
  pose proof (dict_get_map (fun g => py_slice (Some (- K)) None (resampled g))
                _ name group Hnd Hin) as Htest.
  cbv beta in Htrain, Htest.
  rewrite py_slice_head_positive in Htrain by exact HK.
  rewrite py_slice_tail_positive in Htest by exact HK.
  split; [exact Htrain | exact Htest].
Qed.

(** C8, at [test_size = 0].  The table has one product with one row in each
    of January, February and March 2023.  [preprocess_data] returns an
    empty training part and a test part holding all three monthly points:
    [iloc[:-0]] is [iloc[:0]] and [iloc[-0:]] is [iloc[0:]].  "All but the
    last 0 points" are the three points, and "the last 0 points" are none. *)
Theorem preprocess_data_test_size_zero :
  preprocess_data three_month_table col_product_id 0
  = ([(KInt 1, [])],
     [(KInt 1, [ (mkTimestamp 2023 1 31, F64.of_Z 10);
                 (mkTimestamp 2023 2 28, F64.of_Z 20);
                 (mkTimestamp 2023 3 31, F64.of_Z 30) ])]) /\
  length (resampled three_month_table) = 3%nat.
Proof. vm_compute. split; reflexivity. Qed.

(** ** The stationarity loop *)

Section StationarityLoop.

Context {sm : Statsmodels}.

Lemma differenced_succ n series :
  differenced n (dropna (diff series)) = differenced (S n) series.
Proof.
  unfold differenced. induction n as [| n IH]; [reflexivity|].
  simpl in *. rewrite IH. reflexivity.
Qed.

Lemma check_stationarity_raise series e :
  check_stationarity series = Raise e -> adfuller series = Raise e.
Proof.
  unfold check_stationarity. destruct (adfuller series); simpl; congruence.
Qed.

(** What the loop has done when it returns. *)
Lemma make_stationary_loop_ok series d max_diff :
  forall s' d',
  make_stationary_loop series d max_diff = Ok (s', d') ->
  exists n : nat,
    d' = d + Z.of_nat n /\
    s' = differenced n series /\
    (forall k, (k < n)%nat ->
       check_stationarity (differenced k series) = Ok false /\
       d + Z.of_nat k < max_diff) /\
    (check_stationarity s' = Ok true \/
     (check_stationarity s' = Ok false /\ max_diff <= d')).
Proof.
  funelim (make_stationary_loop series d max_diff); intros s' d' Hret;
    try discriminate Hret.
  all: try (injection Hret as <- <-; exists 0%nat;
            split; [lia|]; split; [reflexivity|]; split; [intros k Hk; lia|];
            first [left; assumption | right; split; [assumption | lia]]).
  match goal with
  | IH : forall _ _, _ = Ok _ -> _ |- _ =>
      destruct (IH _ _ Hret) as (n' & Hd & Hs & Hbefore & Hlast)
  end.
  exists (S n'). rewrite <- differenced_succ.
  split; [lia|]. split; [exact Hs|]. split; [| exact Hlast].
  intros [| k] Hk.
  - split; [assumption | simpl; lia].
  - rewrite <- differenced_succ.
    destruct (Hbefore k ltac:(lia)) as [Hc Hb]. split; [exact Hc | lia].
Qed.

(** The loop only fails to return when the test itself raises. *)
Lemma make_stationary_loop_raise series d max_diff :
  forall e,
  make_stationary_loop series d max_diff = Raise e ->
  exists n : nat,
    adfuller (differenced n series) = Raise e /\
    (n = 0%nat \/ d + Z.of_nat n <= max_diff).
Proof.
  funelim (make_stationary_loop series d max_diff); intros e' Hret;
    try discriminate Hret.
  - injection Hret as <-. exists 0%nat.
    split; [apply check_stationarity_raise; assumption | left; reflexivity].
  - match goal with
    | IH : forall _, _ = Raise _ -> _ |- _ =>
        destruct (IH _ Hret) as (n' & Hraise & Hn)
    end.
    exists (S n'). rewrite <- differenced_succ.
    split; [exact Hraise | right; lia].
Qed.

(** The four ways through one evaluation of the loop condition. *)

Lemma make_stationary_loop_stationary series d max_diff :
  check_stationarity series = Ok true ->
  make_stationary_loop series d max_diff = Ok (series, d).
Proof.
  intros Hc. funelim (make_stationary_loop series d max_diff);
    try congruence; reflexivity.
Qed.

Lemma make_stationary_loop_exhausted series d max_diff :
  check_stationarity series = Ok false -> ~ d < max_diff ->
  make_stationary_loop series d max_diff = Ok (series, d).
Proof.
  intros Hc Hd. funelim (make_stationary_loop series d max_diff);
    try congruence; try reflexivity; contradiction.
Qed.

Lemma make_stationary_loop_step series d max_diff :
  check_stationarity series = Ok false -> d < max_diff ->
  make_stationary_loop series d max_diff
  = make_stationary_loop (dropna (diff series)) (d + 1) max_diff.
Proof.
  intros Hc Hd. funelim (make_stationary_loop series d max_diff);
    try congruence; try reflexivity; contradiction.
Qed.

Lemma make_stationary_loop_test_raises series d max_diff e :
  check_stationarity series = Raise e ->
  make_stationary_loop series d max_diff = Raise e.
Proof.
  intros Hc. funelim (make_stationary_loop series d max_diff);
    try congruence; reflexivity.
Qed.

(** Conversely, the loop returns as soon as the test rejects or the bound is
    reached. *)
Lemma make_stationary_loop_returns max_diff (n : nat) :
  forall series d,
  (forall k, (k < n)%nat ->
     check_stationarity (differenced k series) = Ok false /\
     d + Z.of_nat k < max_diff) ->
  (check_stationarity (differenced n series) = Ok true \/
   (check_stationarity (differenced n series) = Ok false /\
    max_diff <= d + Z.of_nat n)) ->
  make_stationary_loop series d max_diff
  = Ok (differenced n series, d + Z.of_nat n).
Proof.
  induction n as [| n IH]; intros series d Hbefore Hlast.
  - replace (d + Z.of_nat 0) with d in * by lia. cbn [differenced Nat.iter] in *.
    destruct Hlast as [Ht | [Hf Hb]].
    + apply make_stationary_loop_stationary, Ht.
    + apply make_stationary_loop_exhausted; [exact Hf | lia].
  - destruct (Hbefore 0%nat ltac:(lia)) as [H0 Hd0].
    cbn [differenced Nat.iter] in H0.
    rewrite make_stationary_loop_step by (exact H0 || lia).
    rewrite <- differenced_succ in Hlast |- *.
    replace (d + Z.of_nat (S n)) with (d + 1 + Z.of_nat n) in * by lia.
    apply IH; [| exact Hlast].
    intros k Hk. rewrite differenced_succ.
    destruct (Hbefore (S k) ltac:(lia)) as [Hc Hb]. split; [exact Hc | lia].
Qed.

End StationarityLoop.

(** ** Claims on [make_stationary] *)

(** C6, counterexample.  The test reports the p-value 0.01 on the series
    10, 20, 30, 40, so it rejects the null hypothesis of non-stationarity at
    the threshold 0.05; with [max_diff = 2] the loop still applies no
    differencing step.  When the test reports 0.5 (no rejection) the loop
    applies two. *)
Lemma make_stationary_rejection_stops :
  @check_stationarity (const_statsmodels c0_01) rising_series = Ok true /\
  @make_stationary (const_statsmodels c0_01) rising_series 2
  = Ok (rising_series, 0) /\
  @check_stationarity (const_statsmodels c0_5) rising_series = Ok false /\
  @make_stationary (const_statsmodels c0_5) rising_series 2
  = Ok (differenced 2 rising_series, 2).
Proof. repeat split; vm_compute; reflexivity. Qed.

(** C6, amended.  [make_stationary] applies [diff().dropna()] while the
    test does not reject the null hypothesis of non-stationarity (the
    p-value is not below 0.05) and fewer than [max_diff] steps have been
    applied.  It returns [(s', d)] exactly when [s'] is the input after [d]
    differencing steps, the test did not reject on any of the earlier
    series, each of which was within the bound, and the test rejects on
    [s'] or [max_diff] is reached. *)
Theorem make_stationary_differences_until_rejection
    {sm : Statsmodels} (series s' : Series) (max_diff d : Z) :
  make_stationary series max_diff = Ok (s', d) <->
  exists n : nat,
    d = Z.of_nat n /\
    s' = differenced n series /\
    (forall k, (k < n)%nat ->
       check_stationarity (differenced k series) = Ok false /\
       Z.of_nat k < max_diff) /\
    (check_stationarity s' = Ok true \/
     (check_stationarity s' = Ok false /\ max_diff <= d)).
Proof.
  unfold make_stationary. split.
  - intros H.
    destruct (make_stationary_loop_ok _ _ _ _ _ H)
      as (n & Hd & Hs & Hbefore & Hlast).
    exists n. split; [lia|]. split; [exact Hs|]. split; [| exact Hlast].
    intros k Hk. destruct (Hbefore k Hk) as [Hc Hb]. split; [exact Hc | lia].
  - intros (n & -> & -> & Hbefore & Hlast).
    rewrite (make_stationary_loop_returns max_diff n series 0).
    + reflexivity.
    + intros k Hk. destruct (Hbefore k Hk) as [Hc Hb]. split; [exact Hc | lia].
    + destruct Hlast as [Ht | [Hf Hb]]; [left; exact Ht | right; split; [exact Hf | lia]].
Qed.

Lemma make_stationary_differences_until_rejection_witness :
  exists n : nat,
    1 = Z.of_nat n /\
    differenced 1 rising_series = differenced n rising_series /\
    (forall k, (k < n)%nat ->
       @check_stationarity toy_statsmodels (differenced k rising_series)
       = Ok false /\
       Z.of_nat k < 2) /\
    (@check_stationarity toy_statsmodels (differenced 1 rising_series)
     = Ok true \/
     (@check_stationarity toy_statsmodels (differenced 1 rising_series)
      = Ok false /\ 2 <= 1)).
Proof.
  apply (proj1 (@make_stationary_differences_until_rejection toy_statsmodels
                  rising_series (differenced 1 rising_series) 2 1)).
  vm_compute. reflexivity.
Defined.

(** C7.  For every series and every [max_diff >= 0] the loop terminates:
    [make_stationary] either returns an order [d] with
    [0 <= d <= max_diff], or propagates the exception the test raised on
    one of the at most [max_diff + 1] series it was applied to. *)
Theorem make_stationary_order_in_range
    {sm : Statsmodels} (series : Series) (max_diff : Z) :
  0 <= max_diff ->
  match make_stationary series max_diff with
  | Ok (_, d) => 0 <= d <= max_diff
  | Raise e =>
      exists n : nat,
        Z.of_nat n <= max_diff /\ adfuller (differenced n series) = Raise e
  end.
Proof.
  intros Hmax. unfold make_stationary.
  destruct (make_stationary_loop series 0 max_diff) as [[s' d] | e] eqn:E.
  - destruct (make_stationary_loop_ok _ _ _ _ _ E)
      as (n & Hd & _ & Hbefore & _).
    destruct n as [| n]; [lia|].
    destruct (Hbefore n ltac:(lia)) as [_ Hb]. lia.
  - destruct (make_stationary_loop_raise _ _ _ _ E) as (n & Hraise & Hn).
    exists n. split; [| exact Hraise]. destruct Hn; lia.
Qed.

Lemma make_stationary_order_in_range_witness :
  match @make_stationary toy_statsmodels rising_series 2 with
  | Ok (_, d) => 0 <= d <= 2
  | Raise e =>
      exists n : nat,
        Z.of_nat n <= 2 /\
        @adfuller toy_statsmodels (differenced n rising_series) = Raise e
  end.
Proof.
  apply (@make_stationary_order_in_range toy_statsmodels rising_series 2).
  lia.
Defined.

(** ** Loops that fill a dictionary, one entry per item *)

Section DictLoop.

Context {A V : Type}.
Variable f : A -> result V.
Variable body : Key * A -> dict V -> result (dict V).
Hypothesis body_eq : forall k a acc,
  body (k, a) acc = (v <- f a ;; Ok (dict_set acc k v))%py.

Lemma for_in_dict (l : list (Key * A)) : forall acc : dict V,
  NoDup (dict_keys acc ++ map fst l) ->
  match for_in l body acc with
  | Ok r =>
      exists vs,
        Forall2 (fun item v => f (snd item) = Ok v) l vs /\
        r = acc ++ combine (map fst l) vs
  | Raise e =>
      exists pre item post,
        l = pre ++ item :: post /\
        (forall x, In x pre -> exists v, f (snd x) = Ok v) /\
        f (snd item) = Raise e
  end.
Proof.
  induction l as [| [k a] l IH]; intros acc Hnd.
  - simpl. exists []. split; [constructor | rewrite app_nil_r; reflexivity].
  - cbn [for_in]. rewrite body_eq.
    destruct (f a) as [v | e] eqn:Ef; cbn [bind].
    + assert (Hfresh : ~ In k (dict_keys acc)).
      { intros Hin. apply NoDup_remove_2 in Hnd. apply Hnd.
        apply in_or_app. left. exact Hin. }
      rewrite dict_set_fresh by exact Hfresh.
      specialize (IH (acc ++ [(k, v)])).
      assert (Hnd' : NoDup (dict_keys (acc ++ [(k, v)]) ++ map fst l)).
      { unfold dict_keys in *. rewrite map_app. cbn [map fst].
        rewrite <- app_assoc. exact Hnd. }
      specialize (IH Hnd').
      destruct (for_in l body (acc ++ [(k, v)])) as [r | e].
      * destruct IH as (vs & Hall & ->).
        exists (v :: vs). split; [constructor; assumption|].
        rewrite <- app_assoc. reflexivity.
      * destruct IH as (pre & item & post & -> & Hpre & Hitem).
        exists ((k, a) :: pre), item, post.
        split; [reflexivity|]. split; [| exact Hitem].
        intros x [<- | Hx]; [exists v; exact Ef | apply Hpre, Hx].
    + exists [], (k, a), l. split; [reflexivity|].
      split; [intros x [] | exact Ef].
Qed.

End DictLoop.

Lemma Forall2_combine_get {A V} (P : A -> V -> Prop) (l : list (Key * A)) :
  forall vs, NoDup (map fst l) ->
  Forall2 (fun item v => P (snd item) v) l vs ->
  dict_keys (combine (map fst l) vs) = map fst l /\
  forall k a, In (k, a) l ->
    exists v, P a v /\ dict_get (combine (map fst l) vs) k = Some v.
Proof.
  induction l as [| [k0 a0] l IH]; intros vs Hnd Hall.
  - inversion Hall; subst. split; [reflexivity | intros k a []].
  - inversion Hall as [| ? v ? vs' Hv Hall']; subst.
    inversion Hnd as [| ? ? Hnotin Hnd']; subst.
    destruct (IH vs' Hnd' Hall') as [Hkeys Hget].
    split.
    + unfold dict_keys in *. cbn. rewrite Hkeys. reflexivity.
    + intros k a [Heq | Hin].
      * injection Heq as -> ->. exists v. split; [exact Hv|].
        cbn. rewrite Key_eqb_refl. reflexivity.
      * destruct (Hget k a Hin) as (v' & Hp & Hg). exists v'.
        split; [exact Hp|]. cbn [map fst combine dict_get].
        rewrite Key_eqb_neq; [exact Hg|].
        intros ->. apply Hnotin. apply (in_map fst) in Hin. exact Hin.
Qed.

(** ** Claims on [arima_pipeline] *)

Section ArimaPipeline.

Context {sm : Statsmodels}.

Lemma arima_pipeline_cases (train : dict SalesFrame) (steps : Z) :
  NoDup (dict_keys train) ->
  match arima_pipeline train steps with
  | Ok forecasts =>
      dict_keys forecasts = dict_keys train /\
      forall key df, In (key, df) train ->
        exists forecast,
          arima_forecast_for df steps = Ok forecast /\
          dict_get forecasts key = Some forecast
  | Raise e =>
      exists pre key df post,
        train = pre ++ (key, df) :: post /\
        (forall key' df', In (key', df') pre ->
           exists forecast, arima_forecast_for df' steps = Ok forecast) /\
        arima_forecast_for df steps = Raise e
  end.
Proof.
  intros Hnd. unfold arima_pipeline.
  pose proof (for_in_dict (fun df => arima_forecast_for df steps)
                (fun (item : Key * SalesFrame) (forecasts : dict Series) =>
                   let '(key, df) := item in
                   (forecast <- arima_forecast_for df steps ;;
                    Ok (dict_set forecasts key forecast))%py)
                ltac:(reflexivity) train [] Hnd) as H.
  cbv beta in H. revert H.
  match goal with
  | |- match ?X with _ => _ end -> _ => destruct X as [r | e]
  end; intros H.
  - destruct H as (vs & Hall & ->). cbn [app].
    apply (Forall2_combine_get
             (fun df v => arima_forecast_for df steps = Ok v)); assumption.
  - destruct H as (pre & [key df] & post & Hl & Hpre & Hitem).
    exists pre, key, df, post. split; [exact Hl|]. split; [| exact Hitem].
    intros key' df' Hin. apply (Hpre (key', df') Hin).
Qed.

End ArimaPipeline.

(** C1, counterexample.  Of three entities the second has a two-point
    series on which the fit raises, while the per-entity computation
    succeeds for the first and the third.  [arima_pipeline] then raises:
    it returns no forecast dictionary at all, hence none that merely lacks
    the second entity. *)
Lemma arima_pipeline_aborts_on_failure :
  @arima_forecast_for toy_statsmodels short_series 12 = Raise LinAlgError /\
  (exists f, @arima_forecast_for toy_statsmodels rising_series 12 = Ok f) /\
  (exists f, @arima_forecast_for toy_statsmodels level_series 12 = Ok f) /\
  @arima_pipeline toy_statsmodels three_entities 12 = Raise LinAlgError /\
  ~ (exists forecasts,
       @arima_pipeline toy_statsmodels three_entities 12 = Ok forecasts /\
       dict_get forecasts (KInt 2) = None /\
       dict_mem forecasts (KInt 1) = true /\
       dict_mem forecasts (KInt 3) = true).
Proof.
  assert (E : @arima_pipeline toy_statsmodels three_entities 12
              = Raise LinAlgError) by (vm_compute; reflexivity).
  split; [vm_compute; reflexivity|].
  split; [eexists; vm_compute; reflexivity|].
  split; [eexists; vm_compute; reflexivity|].
  split; [exact E|].
  intros (forecasts & H & _). rewrite E in H. discriminate H.
Qed.

(** C1, amended.  [arima_pipeline] does not catch anything.  If the
    stationarity test, the fit or the forecast raises for some entity, the
    pipeline raises; the exception is that of the first failing entity in
    dictionary order.  When the pipeline returns, its dictionary has a
    forecast for every entity of the training dictionary. *)
Theorem arima_pipeline_all_or_nothing
    {sm : Statsmodels} (train : dict SalesFrame) (steps : Z) :
  NoDup (dict_keys train) ->
  (forall key df e,
     In (key, df) train -> arima_forecast_for df steps = Raise e ->
     exists e', arima_pipeline train steps = Raise e') /\
  (forall e,
     arima_pipeline train steps = Raise e ->
     exists pre key df post,
       train = pre ++ (key, df) :: post /\
       (forall key' df', In (key', df') pre ->
          exists forecast, arima_forecast_for df' steps = Ok forecast) /\
       arima_forecast_for df steps = Raise e) /\
  (forall forecasts,
     arima_pipeline train steps = Ok forecasts ->
     dict_keys forecasts = dict_keys train /\
     forall key df, In (key, df) train ->
       exists forecast,
         arima_forecast_for df steps = Ok forecast /\
         dict_get forecasts key = Some forecast).
Proof.
  intros Hnd. pose proof (arima_pipeline_cases train steps Hnd) as H.
  destruct (arima_pipeline train steps) as [r | e0].
  - split; [| split].
    + intros key df e Hin Hraise.
      destruct H as [_ H]. destruct (H key df Hin) as (f & Hf & _).
      congruence.
    + intros e He. discriminate He.
    + intros forecasts [= <-]. exact H.
  - split; [| split].
    + intros. exists e0. reflexivity.
    + intros e [= <-]. exact H.
    + intros forecasts Hf. discriminate Hf.
Qed.

Lemma arima_pipeline_all_or_nothing_witness :
  (forall key df e,
     In (key, df) three_entities ->
     @arima_forecast_for toy_statsmodels df 12 = Raise e ->
     exists e', @arima_pipeline toy_statsmodels three_entities 12 = Raise e') /\
  (forall e,
     @arima_pipeline toy_statsmodels three_entities 12 = Raise e ->
     exists pre key df post,
       three_entities = pre ++ (key, df) :: post /\
       (forall key' df', In (key', df') pre ->
          exists forecast,
            @arima_forecast_for toy_statsmodels df' 12 = Ok forecast) /\
       @arima_forecast_for toy_statsmodels df 12 = Raise e) /\
  (forall forecasts,
     @arima_pipeline toy_statsmodels three_entities 12 = Ok forecasts ->
     dict_keys forecasts = dict_keys three_entities /\
     forall key df, In (key, df) three_entities ->
       exists forecast,
         @arima_forecast_for toy_statsmodels df 12 = Ok forecast /\
         dict_get forecasts key = Some forecast).
Proof.
  apply (@arima_pipeline_all_or_nothing toy_statsmodels three_entities 12).
  repeat constructor; simpl; intuition discriminate.
Defined.

(** C2.  When the test does not reject on the training series and rejects
    on its first difference, the model is fitted with order (1, 1, 1) to
    the first difference of the training series, not to the training
    series, and the forecast is the one of that model. *)
Theorem arima_fit_receives_differenced_series
    {sm : Statsmodels} (df : SalesFrame) (steps : Z) :
  check_stationarity df = Ok false ->
  check_stationarity (differenced 1 df) = Ok true ->
  arima_forecast_for df steps
  = (model <- ARIMA_fit (differenced 1 df) (1, 1, 1) ;;
     ARIMAResults_forecast model steps)%py.
Proof.
  intros H0 H1. unfold arima_forecast_for, make_stationary.
  rewrite make_stationary_loop_step by (exact H0 || lia).
  change (dropna (diff df)) with (differenced 1 df).
  rewrite make_stationary_loop_stationary by exact H1.
  reflexivity.
Qed.

Lemma arima_fit_receives_differenced_series_witness :
  @arima_forecast_for toy_statsmodels rising_series 12
  = (model <- @ARIMA_fit toy_statsmodels (differenced 1 rising_series)
                         (1, 1, 1) ;;
     @ARIMAResults_forecast toy_statsmodels model 12)%py.
Proof.
  apply (@arima_fit_receives_differenced_series toy_statsmodels
           rising_series 12); vm_compute; reflexivity.
Defined.

(** The series 10, 20, 30, 40 is fitted as 10, 10, 10, and the twelve
    "forecasts" are differences (10) rather than sales levels. *)
Lemma arima_pipeline_forecasts_differences :
  differenced 1 rising_series
  = monthly_from (jan_2023 + 1) [10; 10; 10] /\
  differenced 1 rising_series <> rising_series /\
  exists forecast,
    @arima_pipeline toy_statsmodels [(KInt 1, rising_series)] 12
    = Ok [(KInt 1, forecast)] /\
    values forecast = repeat (F64.of_Z 10) 12.
Proof.
  split; [vm_compute; reflexivity|].
  split; [intros H; apply (f_equal (@length _)) in H; vm_compute in H;
          discriminate H|].
  eexists. split; vm_compute; reflexivity.
Qed.

(** ** The metrics on comparable arrays *)

Lemma check_reg_targets_ok actual predicted :
  comparable actual predicted -> check_reg_targets actual predicted = Ok tt.
Proof.
  intros (Hlen & Hne & Ha & Hp). unfold check_reg_targets.
  rewrite Hlen, Nat.eqb_refl. cbn [negb].
  destruct predicted as [| x xs]; [congruence|].
  cbn [length Nat.eqb]. rewrite Ha, Hp. reflexivity.
Qed.

Lemma check_reg_targets_length actual predicted :
  length actual <> length predicted ->
  check_reg_targets actual predicted = Raise ValueError.
Proof.
  intros H. unfold check_reg_targets.
  destruct (Nat.eqb_spec (length actual) (length predicted));
    [contradiction | reflexivity].
Qed.

Lemma abs_errors_unfold y_true : forall y_pred,
  np_abs (map (fun xy => F64.sub (fst xy) (snd xy)) (combine y_pred y_true))
  = abs_errors y_true y_pred.
Proof.
  unfold abs_errors, np_abs.
  induction y_true as [| t ts IH]; intros [| p ps]; try reflexivity.
  cbn [combine map fst snd]. rewrite IH. reflexivity.
Qed.

Lemma squared_errors_unfold y_true y_pred :
  map (fun x => F64.mul x x)
      (map (fun xy => F64.sub (fst xy) (snd xy)) (combine y_true y_pred))
  = squared_errors y_true y_pred.
Proof. unfold squared_errors. rewrite map_map. reflexivity. Qed.

Lemma evaluate_forecast_eq actual predicted :
  comparable actual predicted ->
  evaluate_forecast actual predicted = Ok (metrics_of actual predicted).
Proof.
  intros Hc. pose proof Hc as (Hlen & _).
  unfold evaluate_forecast, mean_absolute_error, mean_squared_error.
  rewrite check_reg_targets_ok by exact Hc. cbn [bind].
  rewrite np_binop_same_length by (symmetry; exact Hlen). cbn [bind].
  rewrite np_binop_same_length by exact Hlen. cbn [bind].
  rewrite calculate_mape_eq by exact Hlen. cbn [bind].
  rewrite abs_errors_unfold, squared_errors_unfold. reflexivity.
Qed.

Lemma evaluate_forecast_length_mismatch actual predicted :
  length actual <> length predicted ->
  evaluate_forecast actual predicted = Raise ValueError.
Proof.
  intros H. unfold evaluate_forecast, mean_absolute_error.
  rewrite check_reg_targets_length by exact H. reflexivity.
Qed.

Lemma py_slice_lastn {A} (n : nat) (l : list A) :
  (0 < n)%nat -> py_slice (Some (- Z.of_nat n)) None l = lastn n l.
Proof.
  intros Hn. rewrite py_slice_tail_positive by lia.
  unfold lastn. rewrite Nat2Z.id. reflexivity.
Qed.

Lemma dict_get_of_key {V} (d : dict V) k :
  In k (dict_keys d) -> exists v, dict_get d k = Some v.
Proof.
  induction d as [| [k' v'] d IH]; intros H; [destruct H|].
  simpl in *. destruct (Key_eqb k k') eqn:E; [eauto|].
  destruct H as [-> | H]; [rewrite Key_eqb_refl in E; discriminate|].
  apply IH, H.
Qed.

(** ** Claims on [compare_models] *)

Section CompareModels.

Variable arima_forecasts : dict Series.
Variable prophet_forecasts : dict ProphetFrame.
Variable test_data : dict SalesFrame.

Lemma compare_one_ok key results :
  In key (dict_keys arima_forecasts) ->
  comparable_entity arima_forecasts prophet_forecasts test_data key ->
  if dict_mem test_data key then
    exists row,
      compared arima_forecasts prophet_forecasts test_data key row /\
      compare_one arima_forecasts prophet_forecasts test_data key results
      = Ok (results ++ [row])
  else
    compare_one arima_forecasts prophet_forecasts test_data key results
    = Ok results.
Proof.
  intros Hin Hcmp. unfold compare_one, dict_mem, dict_item.
  destruct (dict_get test_data key) as [tf |] eqn:Et; [| reflexivity].
  destruct (dict_get_of_key _ _ Hin) as (af & Ea).
  destruct (Hcmp tf af Et Ea) as (pf & Ep & Ca & Cp).
  rewrite Ea, Ep. cbn [bind].
  assert (Hpos : (0 < length (values af))%nat).
  { destruct Ca as (_ & Hne & _). destruct (values af); [congruence | simpl; lia]. }
  rewrite py_slice_lastn by exact Hpos.
  assert (Hl : length (values af) = length af) by apply length_map.
  rewrite Hl.
  rewrite (evaluate_forecast_eq _ _ Ca). cbn [bind].
  rewrite (evaluate_forecast_eq _ _ Cp). cbn [bind].
  eexists. split; [| reflexivity].
  exists tf, af, pf. repeat split; assumption.
Qed.

Lemma compare_loop_ok keys : forall results,
  (forall key, In key keys -> In key (dict_keys arima_forecasts)) ->
  (forall key, In key keys -> comparable_entity arima_forecasts prophet_forecasts test_data key) ->
  exists rows,
    for_in keys (compare_one arima_forecasts prophet_forecasts test_data)
           results
    = Ok (results ++ rows) /\
    Forall2 (compared arima_forecasts prophet_forecasts test_data) (filter (dict_mem test_data) keys) rows.
Proof.
  induction keys as [| key keys IH]; intros results Hin Hcmp.
  - exists []. rewrite app_nil_r. split; [reflexivity | constructor].
  - cbn [for_in filter].
    pose proof (compare_one_ok key results (Hin key (or_introl eq_refl))
                  (Hcmp key (or_introl eq_refl))) as H1.
    destruct (dict_mem test_data key).
    + destruct H1 as (row & Hrow & ->). cbn [bind].
      destruct (IH (results ++ [row])
                  (fun k Hk => Hin k (or_intror Hk))
                  (fun k Hk => Hcmp k (or_intror Hk)))
        as (rows & -> & Hrows).
      exists (row :: rows). rewrite <- app_assoc.
      split; [reflexivity | constructor; assumption].
    + rewrite H1. cbn [bind].
      apply IH; intros k Hk; [apply Hin | apply Hcmp]; right; exact Hk.
Qed.

End CompareModels.

(** C4, counterexample.  The entity is in both forecast outputs and in the
    test set; its test suffix has two points, its ARIMA forecast three and
    its Prophet frame five rows.  [compare_models] does not match the
    lengths to the shorter sequence: it raises [ValueError] and returns no
    comparison row. *)
Lemma compare_models_no_length_matching :
  dict_mem three_month_arima (KInt 1) = true /\
  dict_mem five_month_prophet (KInt 1) = true /\
  dict_mem two_month_test (KInt 1) = true /\
  compare_models three_month_arima five_month_prophet two_month_test
  = Raise ValueError /\
  ~ (exists row,
       compare_models three_month_arima five_month_prophet two_month_test
       = Ok [row]).
Proof.
  assert (E : compare_models three_month_arima five_month_prophet
                two_month_test = Raise ValueError)
    by (vm_compute; reflexivity).
  repeat split; try exact E.
  intros (row & H). rewrite E in H. discriminate H.
Qed.

(** C4, amended.  [compare_models] walks the entities of the ARIMA output
    and skips those absent from the test set.  When every entity it does
    not skip is also in the Prophet output, and its test suffix, its ARIMA
    forecast and the last [len(ARIMA forecast)] values of its Prophet
    [yhat] column have the same non-zero length and hold finite values,
    [compare_models] returns exactly one row per such entity, in the order
    of the ARIMA output; the row holds MAE, RMSE and MAPE of the test
    suffix against the ARIMA forecast and against that Prophet slice, each
    over all positions. *)
Theorem compare_models_rows
    (arima_forecasts : dict Series) (prophet_forecasts : dict ProphetFrame)
    (test_data : dict SalesFrame) :
  (forall key, In key (dict_keys arima_forecasts) ->
     comparable_entity arima_forecasts prophet_forecasts test_data key) ->
  exists rows,
    compare_models arima_forecasts prophet_forecasts test_data = Ok rows /\
    Forall2 (compared arima_forecasts prophet_forecasts test_data)
            (filter (dict_mem test_data) (dict_keys arima_forecasts))
            rows.
Proof.
  intros H. unfold compare_models.
  destruct (compare_loop_ok arima_forecasts prophet_forecasts test_data
              (dict_keys arima_forecasts) [] (fun k Hk => Hk) H)
    as (rows & Hr & Hrows).
  exists rows. split; [exact Hr | exact Hrows].
Qed.

Lemma compare_models_rows_witness :
  exists rows,
    compare_models two_month_arima four_month_prophet two_month_test
    = Ok rows /\
    Forall2 (compared two_month_arima four_month_prophet two_month_test)
            (filter (dict_mem two_month_test) (dict_keys two_month_arima))
            rows.
Proof.
  apply (compare_models_rows two_month_arima four_month_prophet
           two_month_test).
  intros key [<- | []] tf af Ht Ha.
  vm_compute in Ht, Ha. injection Ht as <-. injection Ha as <-.
  eexists. split; [vm_compute; reflexivity|].
  split; (split; [reflexivity|]; split; [discriminate|];
          split; vm_compute; reflexivity).
Defined.

(** An entity of the ARIMA output and the test set that the Prophet output
    lacks makes the whole comparison raise [KeyError]. *)
Lemma compare_models_missing_prophet_entity :
  compare_models two_month_arima [] two_month_test = Raise KeyError.
Proof. vm_compute. reflexivity. Qed.

(** ** Claims on [generate_synthetic_sales_data] *)

Section Generator.

Context {env : GeneratorEnv}.

Lemma gen_for_invariant {A S} (P : S -> Prop) (body : A -> S -> Gen S) :
  (forall x s st s' st', P s -> body x s st = Ok (s', st') -> P s') ->
  forall xs s st s' st',
    P s -> gen_for xs body s st = Ok (s', st') -> P s'.
Proof.
  intros Hbody xs. induction xs as [| x xs IH]; intros s st s' st' Hs Hrun.
  - cbn in Hrun. injection Hrun as <- _. exact Hs.
  - cbn [gen_for] in Hrun. unfold gen_bind in Hrun at 1.
    destruct (body x s st) as [[s1 st1] | e] eqn:E; [| discriminate].
    eapply IH; [| exact Hrun]. eapply Hbody; eassumption.
Qed.

Lemma generate_row_nonneg start pid cat base trend seasonality date_ data
      st data' st' :
  sales_nonneg data ->
  generate_row start pid cat base trend seasonality date_ data st
  = Ok (data', st') ->
  sales_nonneg data'.
Proof.
  intros Hdata Hrun. unfold generate_row, gen_bind, gen_lift, gen_ret in Hrun.
  destruct (np_random_normal _ _ st) as [[noise st1] |]; [| discriminate].
  destruct (np_random_choice_0_1 _ _ st1) as [[promotion st2] |];
    [| discriminate].
  destruct (py_int _) as [sales_ |]; [| discriminate].
  destruct (np_random_uniform _ _ st2) as [[price_ st3] |]; [| discriminate].
  injection Hrun as <- _.
  apply Forall_app. split; [exact Hdata|].
  constructor; [| constructor]. cbn [rec_sales]. lia.
Qed.

Lemma generate_product_nonneg start dates num_categories pid data
      st data' st' :
  sales_nonneg data ->
  generate_product start dates num_categories pid data st = Ok (data', st') ->
  sales_nonneg data'.
Proof.
  intros Hdata Hrun. unfold generate_product, gen_bind in Hrun.
  destruct (np_random_randint 1 _ st) as [[c st1] |]; [| discriminate].
  destruct (np_random_randint 100 1000 st1) as [[base st2] |];
    [| discriminate].
  destruct (np_random_uniform _ _ st2) as [[trend st3] |]; [| discriminate].
  destruct (np_random_uniform _ _ st3) as [[seasonality st4] |];
    [| discriminate].
  eapply (gen_for_invariant sales_nonneg); [| exact Hdata | exact Hrun].
  intros. eapply generate_row_nonneg; eassumption.
Qed.

End Generator.

(** C9.  Whatever the parameters, the initial generator state and the
    values the random draws return, every row of the table
    [generate_synthetic_sales_data] returns has a sales value of at least
    0. *)
Theorem generated_sales_nonneg
    {env : GeneratorEnv} (num_products num_categories : Z)
    (start_date end_date : string) (st st' : rng_state)
    (df : list SalesRecord) :
  generate_synthetic_sales_data num_products num_categories
                                start_date end_date st
  = Ok (df, st') ->
  Forall (fun r => 0 <= rec_sales r) df.
Proof.
  intros Hrun.
  unfold generate_synthetic_sales_data, gen_bind, gen_lift in Hrun.
  destruct (strptime_Ymd start_date) as [start |]; [| discriminate].
  destruct (strptime_Ymd end_date) as [end_ |]; [| discriminate].
  eapply (gen_for_invariant sales_nonneg); [| | exact Hrun].
  - intros. eapply generate_product_nonneg; eassumption.
  - constructor.
Qed.

Lemma generated_sales_nonneg_witness :
  exists df st',
    @generate_synthetic_sales_data toy_env 2 3 "2020-01-01" "2020-03-31" 0
    = Ok (df, st') /\
    length df = 6%nat /\
    In 0 (map rec_sales df) /\
    Forall (fun r => 0 <= rec_sales r) df.
Proof.
  do 2 eexists.
  split; [vm_compute; reflexivity|].
  split; [reflexivity|].
  split; [vm_compute; tauto|].
  eapply (@generated_sales_nonneg toy_env 2 3 "2020-01-01" "2020-03-31" 0).
  vm_compute. reflexivity.
Defined.

(** ** Month ends *)

Lemma month_index_month_end i : month_index (month_end i) = i.
Proof.
  unfold month_index, month_end. cbn [year month].
  pose proof (Z.div_mod i 12 ltac:(lia)). lia.
Qed.

Lemma month_end_ltb a b : Timestamp_ltb (month_end a) (month_end b) = (a <? b).
Proof.
  unfold Timestamp_ltb, Timestamp_compare, month_end. cbn [year month day].
  pose proof (Z.div_mod a 12 ltac:(lia)) as Ha.
  pose proof (Z.div_mod b 12 ltac:(lia)) as Hb.
  pose proof (Z.mod_pos_bound a 12 ltac:(lia)) as Ba.
  pose proof (Z.mod_pos_bound b 12 ltac:(lia)) as Bb.
  destruct (Z.compare_spec (a / 12) (b / 12)) as [Ey | Ly | Gy].
  - destruct (Z.compare_spec (a mod 12 + 1) (b mod 12 + 1)) as [Em | Lm | Gm].
    + assert (a = b) by lia. subst b. rewrite Z.compare_refl.
      symmetry. apply Z.ltb_irrefl.
    + symmetry. apply Z.ltb_lt. lia.
    + symmetry. apply Z.ltb_ge. lia.
  - symmetry. apply Z.ltb_lt. lia.
  - symmetry. apply Z.ltb_ge. lia.
Qed.

Lemma Zrange_length lo n : length (Zrange lo n) = Z.to_nat n.
Proof. unfold Zrange. rewrite length_map, length_seq. reflexivity. Qed.

Lemma firstn_seq_le k : forall s n,
  (k <= n)%nat -> firstn k (seq s n) = seq s k.
Proof.
  induction k as [| k IH]; intros s n H; [reflexivity|].
  destruct n as [| n]; [lia|]. cbn. rewrite IH by lia. reflexivity.
Qed.

Lemma seq_shift_by k : forall n s,
  seq (s + k) n = map (fun j => (j + k)%nat) (seq s n).
Proof.
  induction n as [| n IH]; intros s; [reflexivity|].
  cbn. rewrite <- IH. reflexivity.
Qed.

Lemma Zrange_firstn lo n k :
  (k <= Z.to_nat n)%nat -> firstn k (Zrange lo n) = Zrange lo (Z.of_nat k).
Proof.
  intros H. unfold Zrange. rewrite firstn_map, firstn_seq_le by exact H.
  rewrite Nat2Z.id. reflexivity.
Qed.

Lemma max_date_month_ends (idx : list Z) : forall a,
  max_date (map month_end idx) (month_end a)
  = month_end (fold_left Z.max idx a).
Proof.
  unfold max_date.
  induction idx as [| i idx IH]; intros a; [reflexivity|].
  cbn [map fold_left]. rewrite month_end_ltb.
  destruct (Z.ltb_spec a i).
  - rewrite IH. f_equal. f_equal. lia.
  - rewrite IH. f_equal. f_equal. lia.
Qed.

Lemma fold_max_Zrange lo (n : nat) : forall a,
  a <= lo ->
  fold_left Z.max (Zrange lo (Z.of_nat (S n))) a = lo + Z.of_nat n.
Proof.
  unfold Zrange. rewrite Nat2Z.id.
  assert (G : forall k s a, a <= lo + Z.of_nat s ->
            fold_left Z.max (map (fun j => lo + Z.of_nat j) (seq s (S k))) a
            = lo + Z.of_nat (s + k)).
  { induction k as [| k IH]; intros s a Ha.
    - cbn. rewrite Nat.add_0_r. lia.
    - rewrite <- cons_seq. cbn [map fold_left].
      rewrite IH by lia. f_equal. lia. }
  intros a Ha. rewrite G by lia. reflexivity.
Qed.

(** ** The metrics of comparable arrays are not negative *)

Lemma forallb_combine_map (f g h : float -> bool) (k : float -> float -> float) :
  (forall t p, f t = true -> g p = true -> h (k t p) = true) ->
  forall a b, forallb f a = true -> forallb g b = true ->
  forallb h (map (fun tp => k (fst tp) (snd tp)) (combine a b)) = true.
Proof.
  intros Hk. induction a as [| t ts IH]; intros [| p ps] Ha Hb;
    try reflexivity.
  cbn [forallb] in Ha, Hb.
  apply andb_true_iff in Ha as [Ht Hts]. apply andb_true_iff in Hb as [Hp Hps].
  cbn [combine map forallb fst snd]. rewrite Hk by assumption.
  apply IH; assumption.
Qed.

Lemma mul_self_not_nan_nonneg x :
  F64.is_nan x = false -> F64.nonneg (F64.mul x x) = true.
Proof.
  destruct x as [[] | [] | | s m e]; simpl; try discriminate; intros _;
    try reflexivity.
  unfold F64.mul, SFmul. rewrite xorb_nilpotent.
  apply signed_value_nonneg, binary_round_aux_signed. lia.
Qed.

Lemma combine_length_same {A B} (a : list A) (b : list B) :
  length a = length b -> length (combine a b) = length a.
Proof. intros H. rewrite length_combine. lia. Qed.

Lemma both_zero_actual_zero a : forall b,
  existsb both_zero (combine a b) = true -> existsb F64.is_zero a = true.
Proof.
  induction a as [| t ts IH]; intros [| p ps] H; try discriminate.
  cbn [combine existsb] in *. apply orb_true_iff in H as [H | H].
  - unfold both_zero in H. cbn [fst snd] in H.
    apply andb_true_iff in H as [-> _]. reflexivity.
  - rewrite (IH ps H). apply orb_true_r.
Qed.

Lemma metrics_of_sound actual predicted :
  comparable actual predicted ->
  Z.of_nat (length actual) < 2 ^ 53 ->
  F64.nonneg (MAE (metrics_of actual predicted)) = true /\
  F64.nonneg (RMSE (metrics_of actual predicted)) = true /\
  nonneg_or_nan (MAPE (metrics_of actual predicted)) = true /\
  (F64.is_nan (MAPE (metrics_of actual predicted)) = true ->
   existsb F64.is_zero actual = true).
Proof.
  intros (Hlen & Hne & Ha & Hp) Hsmall. cbn [metrics_of MAE RMSE MAPE].
  assert (Hpos : 1 <= Z.of_nat (length actual)).
  { rewrite Hlen. destruct predicted; [congruence | simpl; lia]. }
  assert (Labs : length (abs_errors actual predicted) = length actual)
    by (unfold abs_errors; rewrite length_map; apply combine_length_same, Hlen).
  assert (Lsq : length (squared_errors actual predicted) = length actual)
    by (unfold squared_errors; rewrite length_map;
        apply combine_length_same, Hlen).
  assert (Lape : length (ape_terms actual predicted) = length actual)
    by (apply ape_terms_length, Hlen).
  split; [| split; [| split]].
  - apply np_mean_nonneg; rewrite ?Labs; try assumption.
    unfold abs_errors.
    apply (forallb_combine_map F64.is_finite F64.is_finite F64.nonneg
             (fun t p => F64.abs (F64.sub p t))); try assumption.
    intros t p Ht Hq. apply abs_nonneg, sub_finite_not_nan; assumption.
  - apply sqrt_nonneg, np_mean_nonneg; rewrite ?Lsq; try assumption.
    unfold squared_errors.
    apply (forallb_combine_map F64.is_finite F64.is_finite F64.nonneg
             (fun t p => F64.mul (F64.sub t p) (F64.sub t p)));
      try assumption.
    intros t p Ht Hq. apply mul_self_not_nan_nonneg, sub_finite_not_nan;
      assumption.
  - unfold nonneg_or_nan.
    destruct (F64.is_nan (F64.mul (np_mean (ape_terms actual predicted))
                                  F64.c100)) eqn:E; [apply orb_true_r|].
    rewrite mul_c100_nan_iff in E.
    rewrite mul_c100_nonneg; [reflexivity|].
    apply np_mean_nonneg; rewrite ?Lape; try assumption.
    apply nonneg_or_nan_no_nan.
    + apply ape_terms_nonneg_or_nan; assumption.
    + rewrite <- E. symmetry. apply np_mean_nan; rewrite ?Lape; try assumption.
      apply ape_terms_nonneg_or_nan; assumption.
  - rewrite mul_c100_nan_iff.
    rewrite np_mean_nan; rewrite ?Lape; try assumption.
    + rewrite ape_terms_nan by assumption. apply both_zero_actual_zero.
    + apply ape_terms_nonneg_or_nan; assumption.
Qed.

(** ** The end-to-end run on one entity *)

Lemma resampled_dates group :
  exists i0,
    map fst (resampled group)
    = map month_end (Zrange i0 (Z.of_nat (length (resampled group)))).
Proof.
  unfold resampled, resample_M_sum_sales.
  destruct (sort_values_date group) as [| r0 rest]; [exists 0; reflexivity|].
  eexists. rewrite length_map, Zrange_length, map_map. cbn [fst].
  unfold Zrange. rewrite Nat2Z.id. reflexivity.
Qed.

Lemma Zrange_cons lo (k : nat) :
  Zrange lo (Z.of_nat (S k)) = lo :: Zrange (lo + 1) (Z.of_nat k).
Proof.
  unfold Zrange. rewrite !Nat2Z.id. rewrite <- cons_seq. cbn [map].
  f_equal; [lia|]. rewrite <- seq_shift, map_map.
  apply map_ext. intros x. lia.
Qed.

Lemma Zrange_app lo (a b : nat) :
  Zrange lo (Z.of_nat a) ++ Zrange (lo + Z.of_nat a) (Z.of_nat b)
  = Zrange lo (Z.of_nat (a + b)).
Proof.
  unfold Zrange. rewrite !Nat2Z.id, seq_app, map_app. f_equal.
  rewrite (seq_shift_by a b 0), map_map.
  apply map_ext. intros x. lia.
Qed.

Lemma check_reg_targets_cases y_true y_pred :
  match check_reg_targets y_true y_pred with
  | Ok _ => comparable y_true y_pred
  | Raise e => e = ValueError /\ ~ comparable y_true y_pred
  end.
Proof.
  unfold check_reg_targets, comparable.
  destruct (Nat.eqb_spec (length y_true) (length y_pred)) as [Hlen | Hlen];
    cbn [negb]; [| split; [reflexivity | tauto]].
  destruct (Nat.eqb_spec (length y_true) 0) as [H0 | H0].
  { split; [reflexivity|]. intros (_ & Hne & _).
    destruct y_pred; [congruence | simpl in Hlen; lia]. }
  destruct (forallb F64.is_finite y_true) eqn:Ht;
    [| split; [reflexivity | intros (_ & _ & H & _); discriminate H]].
  destruct (forallb F64.is_finite y_pred) eqn:Hp;
    [| split; [reflexivity | intros (_ & _ & _ & H); discriminate H]].
  cbn. repeat split; try assumption.
  intros ->. simpl in Hlen. lia.
Qed.

Lemma evaluate_forecast_cases actual predicted :
  match evaluate_forecast actual predicted with
  | Ok m => comparable actual predicted /\ m = metrics_of actual predicted
  | Raise e => e = ValueError /\ ~ comparable actual predicted
  end.
Proof.
  pose proof (check_reg_targets_cases actual predicted) as H.
  destruct (check_reg_targets actual predicted) as [[] | e] eqn:E.
  - rewrite (evaluate_forecast_eq _ _ H). split; [exact H | reflexivity].
  - unfold evaluate_forecast, mean_absolute_error. rewrite E. exact H.
Qed.

Section EndToEnd.

Context {sm : Statsmodels} {pl : ProphetLib}.

Lemma make_future_dataframe_month_ends model i0 (k : nat) :
  history_dates model = map month_end (Zrange i0 (Z.of_nat (S k))) ->
  make_future_dataframe model 12
  = Ok (map month_end (Zrange i0 (Z.of_nat (S k + 12)))).
Proof.
  intros Hhist. unfold make_future_dataframe. rewrite Hhist.
  set (L := i0 + Z.of_nat k).
  assert (Hlast : forall t0,
            t0 = month_end i0 ->
            max_date (map month_end (Zrange i0 (Z.of_nat (S k)))) t0
            = month_end L).
  { intros t0 ->. rewrite max_date_month_ends, fold_max_Zrange by lia.
    reflexivity. }
  assert (Hdates12 :
    py_slice None (Some 12)
      (filter (fun t => Timestamp_ltb (month_end L) t)
              (map month_end (Zrange L (12 + 1))))
    = map month_end (Zrange (i0 + Z.of_nat (S k)) (Z.of_nat 12))).
  { replace (i0 + Z.of_nat (S k)) with (L + 1) by lia.
    unfold Zrange.
    change (Z.to_nat (12 + 1)) with 13%nat.
    change (Z.to_nat (Z.of_nat 12)) with 12%nat.
    cbn [seq map filter].
    rewrite !month_end_ltb.
    repeat match goal with
           | |- context [?a <? ?b] =>
               destruct (Z.ltb_spec a b); try lia
           end.
    unfold py_slice. cbn.
    change (PosDef.Pos.to_nat 12) with 12%nat. cbn [firstn].
    repeat (f_equal; try lia). }
  destruct (map month_end (Zrange i0 (Z.of_nat (S k)))) as [| t0 rest] eqn:El.
  - rewrite Zrange_cons in El. discriminate El.
  - assert (Ht0 : t0 = month_end i0)
      by (rewrite Zrange_cons in El; cbn [map] in El; congruence).
    rewrite (Hlast t0 Ht0), month_index_month_end, Hdates12.
    rewrite <- El, <- map_app, Zrange_app. reflexivity.
Qed.

Lemma prophet_forecast_dates train future i0 (k : nat) pf :
  prophet_keeps_dates train future ->
  future = map month_end (Zrange i0 (Z.of_nat (S k + 12))) ->
  map fst train = map month_end (Zrange i0 (Z.of_nat (S k))) ->
  prophet_forecast_for train 12 = Ok pf ->
  map ds pf = future.
Proof.
  intros Hlib Hfuture Hdates H.
  unfold prophet_forecast_for, train_prophet, forecast_prophet in H.
  destruct (Prophet_fit train) as [model |] eqn:Hfit; [| discriminate H].
  cbn [bind] in H. destruct (Hlib model Hfit) as [Hhist Hrows].
  rewrite (make_future_dataframe_month_ends model i0 k) in H
    by (rewrite Hhist; exact Hdates).
  cbn [bind] in H. rewrite <- Hfuture in H. apply Hrows, H.
Qed.

Lemma arima_pipeline_single name train steps :
  arima_pipeline [(name, train)] steps
  = (forecast <- arima_forecast_for train steps ;; Ok [(name, forecast)])%py.
Proof.
  unfold arima_pipeline. cbn [for_in].
  destruct (arima_forecast_for train steps); reflexivity.
Qed.

Lemma prophet_pipeline_single name train steps :
  prophet_pipeline [(name, train)] steps
  = (forecast <- prophet_forecast_for train steps ;;
     Ok [(name, forecast)])%py.
Proof.
  unfold prophet_pipeline, prophet_forecast_for. cbn [for_in].
  destruct (train_prophet train) as [model |]; cbn [bind]; [| reflexivity].
  destruct (forecast_prophet model steps); reflexivity.
Qed.

Lemma compare_models_single name (test : SalesFrame) (af : Series)
    (pf : ProphetFrame) :
  compare_models [(name, af)] [(name, pf)] [(name, test)]
  = (arima_metrics <- evaluate_forecast (values test) (values af) ;;
     prophet_metrics <-
       evaluate_forecast (values test)
         (py_slice (Some (- Z.of_nat (length (values af)))) None
                   (map yhat pf)) ;;
     Ok [mkComparisonRow name
           (MAE arima_metrics) (RMSE arima_metrics) (MAPE arima_metrics)
           (MAE prophet_metrics) (RMSE prophet_metrics)
           (MAPE prophet_metrics)])%py.
Proof.
  unfold compare_models. cbn [dict_keys map fst for_in].
  unfold compare_one, dict_mem, dict_item. cbn [dict_get].
  rewrite Key_eqb_refl. cbn [bind].
  destruct (evaluate_forecast (values test) (values af));
    cbn [bind]; [| reflexivity].
  match goal with
  | |- context [evaluate_forecast ?a ?b] =>
      destruct (evaluate_forecast a b); reflexivity
  end.
Qed.

End EndToEnd.

(** C3, as stated, fails on a series of 48 equal monthly values: the
    36-point training series is constant, the unit-root test refuses it
    with [ValueError], and the run raises instead of returning forecasts
    and a comparison row. *)
Lemma pipeline_raises_on_constant_sales :
  groupby flat_table_48 col_product_id = [(KInt 7, flat_table_48)] /\
  length (resampled flat_table_48) = 48%nat /\
  @run_pipeline strict_statsmodels toy_prophet
    flat_table_48 col_product_id 12 12
  = Raise ValueError.
Proof. repeat split; vm_compute; reflexivity. Qed.

(** C3, amended.  The table has a single entity whose resampled series has
    48 monthly points; the test horizon and the number of forecast steps
    are 12, so the training series has the first 36 points.  The run
    catches nothing: it raises the exception of the ARIMA computation for
    the training series, or else that of the Prophet computation, or else
    the [ValueError] of the metrics when a forecast cannot be compared with
    the 12 test values (wrong length or a value that is not finite).
    Whenever it returns, the ARIMA output of the entity holds exactly 12
    values; the Prophet output holds the rows of the 36 training months
    followed by exactly 12 projected rows, on the 12 months of the test
    suffix; and [compare_models] returns exactly one row, whose MAE and
    RMSE are not negative and whose MAPE is not negative or NaN, NaN only
    if some test-period actual value is zero. *)
Theorem pipeline_on_48_months
    {sm : Statsmodels} {pl : ProphetLib}
    (df : DataFrame) (name : Key) (group : list Row) :
  groupby df col_product_id = [(name, group)] ->
  length (resampled group) = 48%nat ->
  prophet_keeps_dates (firstn 36 (resampled group))
                      (map fst (resampled group)) ->
  match run_pipeline df col_product_id 12 12 with
  | Ok (arima, prophet, comparison) =>
      exists arima_forecast fitted projected row,
        arima = [(name, arima_forecast)] /\
        prophet = [(name, fitted ++ projected)] /\
        comparison = [row] /\
        arima_forecast_for (firstn 36 (resampled group)) 12
        = Ok arima_forecast /\
        prophet_forecast_for (firstn 36 (resampled group)) 12
        = Ok (fitted ++ projected) /\
        length arima_forecast = 12%nat /\
        map ds fitted = map fst (firstn 36 (resampled group)) /\
        length projected = 12%nat /\
        map ds projected = map fst (lastn 12 (resampled group)) /\
        row = row_of name (values (lastn 12 (resampled group)))
                     (values arima_forecast) (map yhat projected) /\
        F64.nonneg (ARIMA_MAE row) = true /\
        F64.nonneg (ARIMA_RMSE row) = true /\
        nonneg_or_nan (ARIMA_MAPE row) = true /\
        F64.nonneg (Prophet_MAE row) = true /\
        F64.nonneg (Prophet_RMSE row) = true /\
        nonneg_or_nan (Prophet_MAPE row) = true /\
        (F64.is_nan (ARIMA_MAPE row) = true \/
         F64.is_nan (Prophet_MAPE row) = true ->
         existsb F64.is_zero (values (lastn 12 (resampled group))) = true)
  | Raise e =>
      arima_forecast_for (firstn 36 (resampled group)) 12 = Raise e \/
      (exists arima_forecast,
         arima_forecast_for (firstn 36 (resampled group)) 12
         = Ok arima_forecast /\
         prophet_forecast_for (firstn 36 (resampled group)) 12 = Raise e) \/
      (e = ValueError /\
       exists arima_forecast prophet_forecast,
         arima_forecast_for (firstn 36 (resampled group)) 12
         = Ok arima_forecast /\
         prophet_forecast_for (firstn 36 (resampled group)) 12
         = Ok prophet_forecast /\
         (~ comparable (values (lastn 12 (resampled group)))
                       (values arima_forecast) \/
          ~ comparable (values (lastn 12 (resampled group)))
                       (lastn 12 (map yhat prophet_forecast))))
  end.
Proof.
  intros Hgroups Hlen Hlib.
  set (s := resampled group) in *.
  set (train := firstn 36 s) in *.
  set (test := lastn 12 s).
  assert (Htest : test = skipn 36 s)
    by (unfold test, lastn; rewrite Hlen; reflexivity).
  (* preprocessing *)
  assert (Hpre : preprocess_data df col_product_id 12
                 = ([(name, train)], [(name, test)])).
  { rewrite preprocess_data_eq, Hgroups. cbn [map fst snd].
    rewrite py_slice_head_positive, py_slice_tail_positive by lia.
    fold s. rewrite Hlen, Htest. reflexivity. }
  assert (Htestlen : length test = 12%nat)
    by (rewrite Htest, length_skipn, Hlen; reflexivity).
  (* the dates of the series *)
  destruct (resampled_dates group) as (i0 & Hdates). fold s in Hdates.
  rewrite Hlen in Hdates.
  assert (Htrain_dates :
            map fst train = map month_end (Zrange i0 (Z.of_nat 36))).
  { unfold train. rewrite <- firstn_map, Hdates, firstn_map.
    rewrite Zrange_firstn by (rewrite Nat2Z.id; lia). reflexivity. }
  pose proof (fun pf =>
                prophet_forecast_dates train (map fst s) i0 35 pf
                  Hlib Hdates Htrain_dates) as Hpds.
  (* the run *)
  unfold run_pipeline. rewrite Hpre. cbv beta iota.
  rewrite arima_pipeline_single.
  destruct (arima_forecast_for train 12) as [af | e];
    cbn [bind]; [| left; reflexivity].
  rewrite prophet_pipeline_single.
  destruct (prophet_forecast_for train 12) as [pf | e] eqn:Hpf;
    cbn [bind]; [| right; left; exists af; split; reflexivity].
  specialize (Hpds pf eq_refl).
  rewrite compare_models_single.
  pose proof (evaluate_forecast_cases (values test) (values af)) as Ha.
  destruct (evaluate_forecast (values test) (values af)) as [ma | e];
    cbn [bind].
  2: { destruct Ha as [-> Hn]. right. right. split; [reflexivity|].
       exists af, pf. repeat split. left. exact Hn. }
  destruct Ha as [Ca ->].
  assert (Haflen : length af = 12%nat).
  { destruct Ca as (Hl & _). unfold values in Hl.
    rewrite !length_map in Hl. lia. }
  assert (Hpos : (0 < length (values af))%nat)
    by (unfold values; rewrite length_map; lia).
  rewrite py_slice_lastn by exact Hpos.
  replace (length (values af)) with 12%nat
    by (unfold values; rewrite length_map; lia).
  pose proof (evaluate_forecast_cases (values test)
                (lastn 12 (map yhat pf))) as Hp.
  destruct (evaluate_forecast (values test) (lastn 12 (map yhat pf)))
    as [mp | e]; cbn [bind].
  2: { destruct Hp as [-> Hn]. right. right. split; [reflexivity|].
       exists af, pf. repeat split. right. exact Hn. }
  destruct Hp as [Cp ->].
  (* the Prophet frame *)
  assert (Hpflen : length pf = 48%nat).
  { rewrite <- (length_map ds), Hpds, length_map. exact Hlen. }
  set (fitted := firstn 36 pf).
  set (projected := skipn 36 pf).
  assert (Hsplit : fitted ++ projected = pf) by apply firstn_skipn.
  assert (Hlastn : lastn 12 (map yhat pf) = map yhat projected).
  { unfold lastn, projected. rewrite length_map, Hpflen.
    rewrite skipn_map. reflexivity. }
  assert (Hprojlen : length projected = 12%nat)
    by (unfold projected; rewrite length_skipn, Hpflen; reflexivity).
  rewrite Hlastn in Cp |- *.
  assert (Hsmall : Z.of_nat (length (values test)) < 2 ^ 53)
    by (unfold values; rewrite length_map, Htestlen; reflexivity).
  destruct (metrics_of_sound _ _ Ca Hsmall) as (Ma1 & Ma2 & Ma3 & Ma4).
  destruct (metrics_of_sound _ _ Cp Hsmall) as (Mp1 & Mp2 & Mp3 & Mp4).
  exists af, fitted, projected,
    (row_of name (values test) (values af) (map yhat projected)).
  rewrite Hsplit.
  split; [reflexivity|]. split; [reflexivity|]. split; [reflexivity|].
  split; [reflexivity|]. split; [reflexivity|].
  split; [exact Haflen|].
  split.
  { unfold fitted, train. rewrite <- !firstn_map, Hpds. reflexivity. }
  split; [exact Hprojlen|].
  split.
  { rewrite Htest. unfold projected.
    rewrite <- !skipn_map, Hpds. reflexivity. }
  split; [reflexivity|].
  cbn [row_of ARIMA_MAE ARIMA_RMSE ARIMA_MAPE
       Prophet_MAE Prophet_RMSE Prophet_MAPE].
  repeat (split; [assumption|]).
  intros [H | H]; [apply Ma4, H | apply Mp4, H].
Qed.

Lemma toy_prophet_keeps_dates (train : Series) (future : list Timestamp) :
  @prophet_keeps_dates toy_prophet train future.
Proof.
  intros model Hfit. cbn in Hfit.
  match type of Hfit with
  | (if ?c then _ else _) = _ => destruct c; [discriminate Hfit|]
  end.
  injection Hfit as <-. split; [reflexivity|].
  intros rows Hrows. cbn in Hrows.
  assert (Hm : forall (x : float) l,
            map ds (map (fun t => mkProphetRow t x x x) l) = l).
  { intros x l. rewrite map_map. cbn [ds]. apply map_id. }
  destruct future as [| t ts]; [discriminate Hrows|].
  injection Hrows as <-.
  exact (Hm (snd (last train (mkTimestamp 0 1 1, F64.zero))) (t :: ts)).
Qed.

Lemma pipeline_on_48_months_witness :
  exists arima_forecast fitted projected row,
    @run_pipeline strict_statsmodels toy_prophet
      seasonal_table_48 col_product_id 12 12
    = Ok ([(KInt 7, arima_forecast)], [(KInt 7, fitted ++ projected)],
          [row]) /\
    length arima_forecast = 12%nat /\
    map ds fitted = map fst (firstn 36 (resampled seasonal_table_48)) /\
    length projected = 12%nat /\
    map ds projected = map fst (lastn 12 (resampled seasonal_table_48)) /\
    row = row_of (KInt 7) (values (lastn 12 (resampled seasonal_table_48)))
                 (values arima_forecast) (map yhat projected) /\
    F64.nonneg (ARIMA_MAE row) = true /\
    F64.nonneg (ARIMA_RMSE row) = true /\
    nonneg_or_nan (ARIMA_MAPE row) = true /\
    F64.nonneg (Prophet_MAE row) = true /\
    F64.nonneg (Prophet_RMSE row) = true /\
    nonneg_or_nan (Prophet_MAPE row) = true /\
    (F64.is_nan (ARIMA_MAPE row) = true \/
     F64.is_nan (Prophet_MAPE row) = true ->
     existsb F64.is_zero (values (lastn 12 (resampled seasonal_table_48)))
     = true).
Proof.
  pose proof (@pipeline_on_48_months strict_statsmodels toy_prophet
                seasonal_table_48 (KInt 7) seasonal_table_48) as H.
  assert (Hgroups : groupby seasonal_table_48 col_product_id
                    = [(KInt 7, seasonal_table_48)])
    by (vm_compute; reflexivity).
  assert (Hlen : length (resampled seasonal_table_48) = 48%nat)
    by (vm_compute; reflexivity).
  specialize (H Hgroups Hlen (toy_prophet_keeps_dates _ _)).
  assert (Hrun : exists out,
    @run_pipeline strict_statsmodels toy_prophet
      seasonal_table_48 col_product_id 12 12 = Ok out)
    by (eexists; vm_compute; reflexivity).
  destruct Hrun as ([[arima prophet] comparison] & Hrun).
  rewrite Hrun in H |- *.
  destruct H as (af & fitted & projected & row & -> & -> & -> & _ & _ & H).
  exists af, fitted, projected, row. split; [reflexivity | exact H].
Defined.

(* ===================================================================== *)
(** * Part III: further properties of the pipeline                       *)
(* ===================================================================== *)

(** ** [evaluate_forecast] and [calculate_mape] *)

(** X1.  [evaluate_forecast] returns exactly for two arrays of the same
    non-zero length that hold only finite values, and then its result is
    the three metrics over all positions; on any other input it raises
    [ValueError], never another exception. *)
Theorem evaluate_forecast_returns_iff_comparable
    (actual predicted : ndarray) :
  (forall m,
     evaluate_forecast actual predicted = Ok m <->
     comparable actual predicted /\ m = metrics_of actual predicted) /\
  (forall e,
     evaluate_forecast actual predicted = Raise e ->
     e = ValueError /\ ~ comparable actual predicted).
Proof.
  pose proof (evaluate_forecast_cases actual predicted) as H.
  destruct (evaluate_forecast actual predicted) as [m0 | e0].
  - split.
    + intros m. split.
      * intros [= <-]. exact H.
      * intros [_ ->]. destruct H as [_ ->]. reflexivity.
    + intros e He. discriminate He.
  - split.
    + intros m. split; [discriminate|]. intros [Hc _]. destruct H as [_ H].
      contradiction.
    + intros e [= <-]. exact H.
Qed.

Lemma abs_errors_diag y :
  forallb F64.is_finite y = true ->
  Forall (fun x => x = F64.zero) (abs_errors y y).
Proof.
  unfold abs_errors. induction y as [| t ts IH]; intros H; [constructor|].
  cbn [forallb] in H. apply andb_true_iff in H as [Ht Hts].
  cbn [combine map fst snd]. constructor; [| apply IH, Hts].
  rewrite sub_diag_finite by exact Ht. reflexivity.
Qed.

Lemma squared_errors_diag y :
  forallb F64.is_finite y = true ->
  Forall (fun x => x = F64.zero) (squared_errors y y).
Proof.
  unfold squared_errors. induction y as [| t ts IH]; intros H; [constructor|].
  cbn [forallb] in H. apply andb_true_iff in H as [Ht Hts].
  cbn [combine map fst snd]. constructor; [| apply IH, Hts].
  rewrite sub_diag_finite by exact Ht. reflexivity.
Qed.

(** X2.  A perfect forecast has no error: for a non-empty array [y] of
    finite values, [evaluate_forecast y y] returns MAE 0.0 and RMSE 0.0. *)
Theorem evaluate_forecast_perfect (y : ndarray) :
  y <> [] ->
  Z.of_nat (length y) < 2 ^ 53 ->
  forallb F64.is_finite y = true ->
  exists m,
    evaluate_forecast y y = Ok m /\ MAE m = F64.zero /\ RMSE m = F64.zero.
Proof.
  intros Hne Hsmall Hfin.
  assert (Hc : comparable y y) by (repeat split; assumption).
  rewrite (evaluate_forecast_eq _ _ Hc). eexists. split; [reflexivity|].
  assert (Hpos : 1 <= Z.of_nat (length y))
    by (destruct y; [congruence | simpl; lia]).
  assert (La : length (abs_errors y y) = length y)
    by (unfold abs_errors; rewrite length_map; apply combine_length_same;
        reflexivity).
  assert (Ls : length (squared_errors y y) = length y)
    by (unfold squared_errors; rewrite length_map; apply combine_length_same;
        reflexivity).
  cbn [metrics_of MAE RMSE]. split.
  - apply np_mean_zeros; rewrite ?La; try assumption.
    apply abs_errors_diag, Hfin.
  - rewrite np_mean_zeros; rewrite ?Ls; try assumption.
    + reflexivity.
    + apply squared_errors_diag, Hfin.
Qed.

Lemma evaluate_forecast_perfect_witness :
  exists m,
    evaluate_forecast [F64.c100; F64.zero; SFopp F64.c1_2]
                      [F64.c100; F64.zero; SFopp F64.c1_2] = Ok m /\
    MAE m = F64.zero /\ RMSE m = F64.zero.
Proof.
  apply (evaluate_forecast_perfect [F64.c100; F64.zero; SFopp F64.c1_2]);
    [discriminate | reflexivity | reflexivity].
Defined.

Lemma np_binop_cases op a b :
  match np_binop op a b with
  | Ok c =>
      (length a = length b /\ length c = length a) \/
      (length a <> length b /\ length b = 1%nat /\ length c = length a) \/
      (length a <> length b /\ length a = 1%nat /\ length c = length b)
  | Raise e =>
      e = ValueError /\ length a <> length b /\
      length a <> 1%nat /\ length b <> 1%nat
  end.
Proof.
  unfold np_binop.
  destruct (Nat.eqb_spec (length a) (length b)) as [H | H].
  - left. split; [exact H|]. rewrite length_map, length_combine. lia.
  - destruct a as [| x [| x' a']], b as [| y [| y' b']];
      cbn [length] in H; cbn;
      first
        [ exfalso; lia
        | right; left; rewrite ?length_map; cbn [length];
          repeat split; (reflexivity || lia)
        | right; right; rewrite ?length_map; cbn [length];
          repeat split; (reflexivity || lia)
        | repeat split; try reflexivity; lia ].
Qed.

(** X3.  [calculate_mape] raises exactly when the two arrays differ in
    length and neither has length one (numpy cannot broadcast them), and
    the exception is then [ValueError]; zero actual values and empty arrays
    never make it raise. *)
Theorem calculate_mape_raises_iff (y_true y_pred : ndarray) :
  (forall e,
     calculate_mape y_true y_pred = Raise e ->
     e = ValueError) /\
  ((exists e, calculate_mape y_true y_pred = Raise e) <->
   length y_true <> length y_pred /\
   length y_true <> 1%nat /\ length y_pred <> 1%nat).
Proof.
  unfold calculate_mape.
  pose proof (np_binop_cases F64.sub y_true y_pred) as H1.
  destruct (np_binop F64.sub y_true y_pred) as [d | e1]; cbn [bind].
  - pose proof (np_binop_cases F64.div d y_true) as H2.
    destruct (np_binop F64.div d y_true) as [q | e2]; cbn [bind].
    + split; [intros e He; discriminate He|].
      split; [intros (e & He); discriminate He|].
      intros (Hne & Ht & Hp). destruct H1 as [[H _] | [[_ [H _]] | [_ [H _]]]];
        contradiction.
    + exfalso. destruct H2 as (_ & Hne & Hd & Ht).
      destruct H1 as [[_ H] | [[_ [_ H]] | [_ [H _]]]]; congruence.
  - destruct H1 as (-> & Hne & Ht & Hp).
    split; [intros e [= <-]; reflexivity|].
    split; [intros _; repeat split; assumption | intros _; eauto].
Qed.

(** ** [compare_models] *)

Lemma compare_one_inv arima prophet test key results results' :
  compare_one arima prophet test key results = Ok results' ->
  if dict_mem test key then
    exists row, compared arima prophet test key row /\
                results' = results ++ [row]
  else results' = results.
Proof.
  unfold compare_one, dict_mem, dict_item. intros H.
  destruct (dict_get test key) as [tf |] eqn:Et; [| congruence].
  destruct (dict_get arima key) as [af |] eqn:Ea; [| discriminate H].
  destruct (dict_get prophet key) as [pf |] eqn:Ep; [| discriminate H].
  cbn [bind] in H.
  pose proof (evaluate_forecast_cases (values tf) (values af)) as Ha.
  destruct (evaluate_forecast (values tf) (values af)) as [ma |];
    [| discriminate H].
  destruct Ha as [Ca ->]. cbn [bind] in H.
  assert (Hpos : (0 < length (values af))%nat).
  { destruct Ca as (_ & Hne & _).
    destruct (values af); [congruence | simpl; lia]. }
  rewrite py_slice_lastn in H by exact Hpos.
  replace (length (values af)) with (length af) in H
    by (unfold values; rewrite length_map; reflexivity).
  pose proof (evaluate_forecast_cases (values tf)
                (lastn (length af) (map yhat pf))) as Hp.
  destruct (evaluate_forecast (values tf) (lastn (length af) (map yhat pf)))
    as [mp |]; [| discriminate H].
  destruct Hp as [Cp ->]. cbn [bind] in H. injection H as <-.
  eexists. split; [| reflexivity].
  exists tf, af, pf. repeat split; assumption.
Qed.

Lemma compare_loop_inv arima prophet test keys : forall results results',
  for_in keys (compare_one arima prophet test) results = Ok results' ->
  exists rows,
    results' = results ++ rows /\
    Forall2 (compared arima prophet test) (filter (dict_mem test) keys) rows.
Proof.
  induction keys as [| key keys IH]; intros results results' H.
  - cbn in H. injection H as <-. exists [].
    rewrite app_nil_r. split; [reflexivity | constructor].
  - cbn [for_in] in H.
    destruct (compare_one arima prophet test key results) as [r1 |] eqn:E1;
      [| discriminate H].
    cbn [bind] in H. pose proof (compare_one_inv _ _ _ _ _ _ E1) as H1.
    destruct (IH _ _ H) as (rows & -> & Hrows).
    cbn [filter]. destruct (dict_mem test key).
    + destruct H1 as (row & Hrow & ->). exists (row :: rows).
      rewrite <- app_assoc. split; [reflexivity | constructor; assumption].
    + subst r1. exists rows. split; [reflexivity | exact Hrows].
Qed.

Lemma compared_key arima prophet test keys rows :
  Forall2 (compared arima prophet test) keys rows ->
  map Product_Category rows = keys.
Proof.
  induction 1 as [| key row keys rows Hrow _ IH]; [reflexivity|].
  destruct Hrow as (tf & af & pf & _ & _ & _ & ->).
  cbn [map row_of Product_Category]. rewrite IH. reflexivity.
Qed.

(** X4.  Whenever [compare_models] returns, its frame has exactly one row
    for each entity of the ARIMA output that is in the test set, in the
    order of the ARIMA output, and no other row; the row of an entity holds
    the metrics of its test suffix against its ARIMA forecast and against
    the last [len(ARIMA forecast)] Prophet predictions. *)
Theorem compare_models_one_row_per_entity
    (arima_forecasts : dict Series) (prophet_forecasts : dict ProphetFrame)
    (test_data : dict SalesFrame) (rows : list ComparisonRow) :
  compare_models arima_forecasts prophet_forecasts test_data = Ok rows ->
  map Product_Category rows
  = filter (dict_mem test_data) (dict_keys arima_forecasts) /\
  Forall2 (compared arima_forecasts prophet_forecasts test_data)
          (filter (dict_mem test_data) (dict_keys arima_forecasts)) rows.
Proof.
  intros H. unfold compare_models in H.
  destruct (compare_loop_inv _ _ _ _ _ _ H) as (rows' & -> & Hrows).
  cbn [app]. split; [eapply compared_key, Hrows | exact Hrows].
Qed.

Lemma compare_models_one_row_per_entity_witness :
  exists rows,
    compare_models two_month_arima four_month_prophet two_month_test
    = Ok rows /\
    map Product_Category rows
    = filter (dict_mem two_month_test) (dict_keys two_month_arima) /\
    Forall2 (compared two_month_arima four_month_prophet two_month_test)
            (filter (dict_mem two_month_test) (dict_keys two_month_arima))
            rows.
Proof.
  eexists. split; [vm_compute; reflexivity|].
  apply (compare_models_one_row_per_entity two_month_arima
           four_month_prophet two_month_test).
  vm_compute. reflexivity.
Defined.

Lemma dict_get_set_other {V} (d : dict V) k k' v :
  k' <> k -> dict_get (dict_set d k v) k' = dict_get d k'.
Proof.
  intros Hne. induction d as [| [k0 v0] d IH]; cbn [dict_set dict_get].
  - rewrite Key_eqb_neq by exact Hne. reflexivity.
  - destruct (Key_eqb k k0) eqn:E; cbn [dict_get].
    + apply Key_eqb_eq in E as <-.
      rewrite Key_eqb_neq by exact Hne. reflexivity.
    + rewrite IH. reflexivity.
Qed.

Lemma for_in_ext {A S} (body1 body2 : A -> S -> result S) xs :
  (forall x s, In x xs -> body1 x s = body2 x s) ->
  forall s, for_in xs body1 s = for_in xs body2 s.
Proof.
  induction xs as [| x xs IH]; intros H s; [reflexivity|].
  cbn [for_in]. rewrite H by (left; reflexivity).
  destruct (body2 x s); cbn [bind]; [| reflexivity].
  apply IH. intros y s' Hy. apply H. right. exact Hy.
Qed.

(** X5.  Entities without an ARIMA forecast are ignored: assigning an
    entry for such an entity in the Prophet output and in the test set
    changes neither the rows [compare_models] returns nor the exception it
    raises. *)
Theorem compare_models_ignores_other_entities
    (arima_forecasts : dict Series) (prophet_forecasts : dict ProphetFrame)
    (test_data : dict SalesFrame) (key : Key)
    (frame : ProphetFrame) (test : SalesFrame) :
  ~ In key (dict_keys arima_forecasts) ->
  compare_models arima_forecasts
                 (dict_set prophet_forecasts key frame)
                 (dict_set test_data key test)
  = compare_models arima_forecasts prophet_forecasts test_data.
Proof.
  intros Hnot. unfold compare_models. apply for_in_ext.
  intros k results Hk.
  assert (Hne : k <> key) by (intros ->; contradiction).
  unfold compare_one, dict_mem, dict_item.
  rewrite !dict_get_set_other by exact Hne. reflexivity.
Qed.

Lemma compare_models_ignores_other_entities_witness :
  compare_models two_month_arima
                 (dict_set four_month_prophet (KInt 2) [])
                 (dict_set two_month_test (KInt 2) rising_series)
  = compare_models two_month_arima four_month_prophet two_month_test.
Proof.
  apply (compare_models_ignores_other_entities two_month_arima
           four_month_prophet two_month_test (KInt 2) [] rising_series).
  simpl. intros [H | []]. discriminate H.
Defined.

(** ** [make_stationary] at its bounds *)

(** X6.  With [max_diff <= 0] no differencing step is ever applied, yet the
    unit-root test is still run once: [make_stationary] returns the series
    unchanged with order 0 if the test returns, and propagates the
    exception of the test otherwise. *)
Theorem make_stationary_without_budget
    {sm : Statsmodels} (series : Series) (max_diff : Z) :
  max_diff <= 0 ->
  make_stationary series max_diff
  = match adfuller series with
    | Ok _ => Ok (series, 0)
    | Raise e => Raise e
    end.
Proof.
  intros Hmax. unfold make_stationary.
  destruct (check_stationarity series) as [[] | e] eqn:E.
  - rewrite make_stationary_loop_stationary by exact E.
    unfold check_stationarity in E. destruct (adfuller series);
      [reflexivity | discriminate E].
  - rewrite make_stationary_loop_exhausted by (exact E || lia).
    unfold check_stationarity in E. destruct (adfuller series);
      [reflexivity | discriminate E].
  - rewrite (make_stationary_loop_test_raises _ _ _ _ E).
    apply check_stationarity_raise in E. rewrite E. reflexivity.
Qed.

Lemma make_stationary_without_budget_witness :
  @make_stationary toy_statsmodels rising_series (-1)
  = match @adfuller toy_statsmodels rising_series with
    | Ok _ => Ok (rising_series, 0)
    | Raise e => Raise e
    end.
Proof.
  apply (@make_stationary_without_budget toy_statsmodels rising_series (-1)).
  lia.
Defined.

Lemma diff_from_length prev s : length (diff_from prev s) = length s.
Proof.
  revert prev. induction s as [| [t x] s IH]; intros prev; [reflexivity|].
  cbn. rewrite IH. reflexivity.
Qed.

Lemma diff_from_index prev s : map fst (diff_from prev s) = map fst s.
Proof.
  revert prev. induction s as [| [t x] s IH]; intros prev; [reflexivity|].
  cbn. rewrite IH. reflexivity.
Qed.

Lemma dropna_diff_length s :
  (length (dropna (diff s)) <= length s - 1)%nat.
Proof.
  destruct s as [| [t x] rest]; [cbn; lia|].
  cbn [diff dropna filter snd F64.is_nan F64.nan negb length].
  pose proof (filter_length_le
                (fun tx : Timestamp * float => negb (F64.is_nan (snd tx)))
                (diff_from x rest)) as H.
  rewrite diff_from_length in H. lia.
Qed.

Lemma dropna_diff_index s : incl (map fst (dropna (diff s))) (map fst s).
Proof.
  intros t Ht. apply in_map_iff in Ht as ([t' x] & <- & Hin).
  unfold dropna in Hin. apply filter_In in Hin as [Hin _].
  apply (in_map fst) in Hin.
  destruct s as [| [t0 x0] rest]; [exact Hin|].
  cbn [diff map fst] in Hin |- *. rewrite diff_from_index in Hin. exact Hin.
Qed.

Lemma dropna_no_nan s :
  forallb (fun x => negb (F64.is_nan x)) (values (dropna s)) = true.
Proof.
  unfold values, dropna. induction s as [| [t x] s IH]; [reflexivity|].
  cbn [filter snd]. destruct (negb (F64.is_nan x)) eqn:E; [| exact IH].
  cbn [map forallb snd]. rewrite E. exact IH.
Qed.

Lemma differenced_S n s :
  differenced (S n) s = dropna (diff (differenced n s)).
Proof. reflexivity. Qed.

Lemma differenced_length n s :
  (length (differenced n s) <= length s - n)%nat.
Proof.
  induction n as [| n IH]; [cbn; lia|].
  rewrite differenced_S.
  pose proof (dropna_diff_length (differenced n s)). lia.
Qed.

Lemma differenced_index n s :
  incl (map fst (differenced n s)) (map fst s).
Proof.
  induction n as [| n IH]; [apply incl_refl|].
  rewrite differenced_S.
  eapply incl_tran; [apply dropna_diff_index | exact IH].
Qed.

(** X7.  Every differencing step costs at least one observation and adds
    no date: when [make_stationary] returns [(s', d)], [s'] has at most
    [len(series) - d] points, its dates are dates of the input, and for
    [d >= 1] it holds no NaN. *)
Theorem make_stationary_shortens
    {sm : Statsmodels} (series s' : Series) (max_diff d : Z) :
  make_stationary series max_diff = Ok (s', d) ->
  (length s' <= length series - Z.to_nat d)%nat /\
  incl (map fst s') (map fst series) /\
  (0 < d -> forallb (fun x => negb (F64.is_nan x)) (values s') = true).
Proof.
  intros H. unfold make_stationary in H.
  destruct (make_stationary_loop_ok _ _ _ _ _ H) as (n & Hd & -> & _).
  replace (Z.to_nat d) with n by lia.
  split; [apply differenced_length|].
  split; [apply differenced_index|].
  intros Hpos. destruct n as [| n]; [lia|].
  rewrite differenced_S. apply dropna_no_nan.
Qed.

Lemma make_stationary_shortens_witness :
  (length (differenced 1 rising_series)
   <= length rising_series - Z.to_nat 1)%nat /\
  incl (map fst (differenced 1 rising_series)) (map fst rising_series) /\
  (0 < 1 ->
   forallb (fun x => negb (F64.is_nan x))
           (values (differenced 1 rising_series)) = true).
Proof.
  apply (@make_stationary_shortens toy_statsmodels rising_series
           (differenced 1 rising_series) 2 1).
  vm_compute. reflexivity.
Defined.

(** X8.  If the test returns on the series and on each of its first
    [max_diff] differences a p-value that is not below 0.05 (a NaN p-value
    is not), [make_stationary] differences exactly [max_diff] times. *)
Theorem make_stationary_exhausts_budget
    {sm : Statsmodels} (series : Series) (max_diff : Z) :
  0 <= max_diff ->
  (forall n : nat, Z.of_nat n <= max_diff ->
     exists p, adfuller (differenced n series) = Ok p /\
               F64.ltb p F64.c0_05 = false) ->
  make_stationary series max_diff
  = Ok (differenced (Z.to_nat max_diff) series, max_diff).
Proof.
  intros Hmax Hp.
  assert (Hc : forall n : nat, Z.of_nat n <= max_diff ->
                 check_stationarity (differenced n series) = Ok false).
  { intros n Hn. destruct (Hp n Hn) as (p & Ha & Hlt).
    unfold check_stationarity. rewrite Ha. cbn [bind]. rewrite Hlt.
    reflexivity. }
  unfold make_stationary.
  rewrite (make_stationary_loop_returns max_diff (Z.to_nat max_diff) series 0).
  - f_equal. f_equal. lia.
  - intros k Hk. split; [apply Hc; lia | lia].
  - right. split; [apply Hc; lia | lia].
Qed.

Lemma make_stationary_exhausts_budget_witness :
  @make_stationary (const_statsmodels F64.nan) rising_series 2
  = Ok (differenced (Z.to_nat 2) rising_series, 2).
Proof.
  apply (@make_stationary_exhausts_budget (const_statsmodels F64.nan)
           rising_series 2).
  - lia.
  - intros n Hn. exists F64.nan. split; reflexivity.
Defined.

(** ** Dates and month ends *)

Lemma Timestamp_ltb_spec a b :
  Timestamp_ltb a b = true <->
  year a < year b \/
  (year a = year b /\
   (month a < month b \/ (month a = month b /\ day a < day b))).
Proof.
  unfold Timestamp_ltb, Timestamp_compare.
  destruct (Z.compare_spec (year a) (year b));
    destruct (Z.compare_spec (month a) (month b));
    destruct (Z.compare_spec (day a) (day b));
    split; intros; try reflexivity; try discriminate; lia.
Qed.





Lemma filter_all_true {A} (f : A -> bool) l :
  (forall x, In x l -> f x = true) -> filter f l = l.
Proof.
  induction l as [| x l IH]; intros H; [reflexivity|].
  cbn [filter]. rewrite H by (left; reflexivity).
  rewrite IH; [reflexivity|]. intros y Hy. apply H. right. exact Hy.
Qed.



(** ** [forecast_prophet] and [prophet_pipeline] *)




(** On the history of the witness, which stops on 10 February 2023, the
    two projected dates are 28 February and 31 March 2023. *)
Lemma forecast_prophet_mid_month_example :
  exists rows,
    @forecast_prophet toy_prophet
      [(mkTimestamp 2023 1 10, F64.c1); (mkTimestamp 2023 2 10, F64.c1)] 2
    = Ok rows /\
    map ds rows
    = [mkTimestamp 2023 1 10; mkTimestamp 2023 2 10;
       mkTimestamp 2023 2 28; mkTimestamp 2023 3 31].
Proof. eexists. split; vm_compute; reflexivity. Qed.

Lemma prophet_pipeline_cases
    {pl : ProphetLib} (train : dict SalesFrame) (steps : Z) :
  NoDup (dict_keys train) ->
  match prophet_pipeline train steps with
  | Ok forecasts =>
      dict_keys forecasts = dict_keys train /\
      forall key df, In (key, df) train ->
        exists forecast,
          prophet_forecast_for df steps = Ok forecast /\
          dict_get forecasts key = Some forecast
  | Raise e =>
      exists pre key df post,
        train = pre ++ (key, df) :: post /\
        (forall key' df', In (key', df') pre ->
           exists forecast, prophet_forecast_for df' steps = Ok forecast) /\
        prophet_forecast_for df steps = Raise e
  end.
Proof.
  intros Hnd. unfold prophet_pipeline.
  assert (Hbody : forall k a acc,
    (fun (item : Key * SalesFrame) (forecasts : dict ProphetFrame) =>
       let '(key, df) := item in
       (model <- train_prophet df ;;
        forecast <- forecast_prophet model steps ;;
        Ok (dict_set forecasts key forecast))%py) (k, a) acc
    = (v <- prophet_forecast_for a steps ;; Ok (dict_set acc k v))%py).
  { intros k a acc. unfold prophet_forecast_for.
    destruct (train_prophet a); reflexivity. }
  pose proof (for_in_dict (fun df => prophet_forecast_for df steps) _
                Hbody train [] Hnd) as H.
  cbv beta in H. revert H.
  match goal with
  | |- match ?X with _ => _ end -> _ => destruct X as [r | e]
  end; intros H.
  - destruct H as (vs & Hall & ->). cbn [app].
    apply (Forall2_combine_get
             (fun df v => prophet_forecast_for df steps = Ok v)); assumption.
  - destruct H as (pre & [key df] & post & Hl & Hpre & Hitem).
    exists pre, key, df, post. split; [exact Hl|]. split; [| exact Hitem].
    intros key' df' Hin. apply (Hpre (key', df') Hin).
Qed.

(** X10.  [prophet_pipeline] catches nothing either: if the fit or the
    prediction raises for some entity the pipeline raises, with the
    exception of the first failing entity in dictionary order, and when it
    returns, its dictionary has the forecast of every entity of the
    training dictionary, under the same keys in the same order. *)
Theorem prophet_pipeline_all_or_nothing
    {pl : ProphetLib} (train : dict SalesFrame) (steps : Z) :
  NoDup (dict_keys train) ->
  (forall key df e,
     In (key, df) train -> prophet_forecast_for df steps = Raise e ->
     exists e', prophet_pipeline train steps = Raise e') /\
  (forall e,
     prophet_pipeline train steps = Raise e ->
     exists pre key df post,
       train = pre ++ (key, df) :: post /\
       (forall key' df', In (key', df') pre ->
          exists forecast, prophet_forecast_for df' steps = Ok forecast) /\
       prophet_forecast_for df steps = Raise e) /\
  (forall forecasts,
     prophet_pipeline train steps = Ok forecasts ->
     dict_keys forecasts = dict_keys train /\
     forall key df, In (key, df) train ->
       exists forecast,
         prophet_forecast_for df steps = Ok forecast /\
         dict_get forecasts key = Some forecast).
Proof.
  intros Hnd. pose proof (prophet_pipeline_cases train steps Hnd) as H.
  destruct (prophet_pipeline train steps) as [r | e0].
  - split; [| split].
    + intros key df e Hin Hraise.
      destruct H as [_ H]. destruct (H key df Hin) as (f & Hf & _).
      congruence.
    + intros e He. discriminate He.
    + intros forecasts [= <-]. exact H.
  - split; [| split].
    + intros. exists e0. reflexivity.
    + intros e [= <-]. exact H.
    + intros forecasts Hf. discriminate Hf.
Qed.


Lemma prophet_pipeline_all_or_nothing_witness :
  (forall key df e,
     In (key, df) three_entities ->
     @prophet_forecast_for toy_prophet df 12 = Raise e ->
     exists e', @prophet_pipeline toy_prophet three_entities 12 = Raise e') /\
  (forall e,
     @prophet_pipeline toy_prophet three_entities 12 = Raise e ->
     exists pre key df post,
       three_entities = pre ++ (key, df) :: post /\
       (forall key' df', In (key', df') pre ->
          exists forecast,
            @prophet_forecast_for toy_prophet df' 12 = Ok forecast) /\
       @prophet_forecast_for toy_prophet df 12 = Raise e) /\
  (forall forecasts,
     @prophet_pipeline toy_prophet three_entities 12 = Ok forecasts ->
     dict_keys forecasts = dict_keys three_entities /\
     forall key df, In (key, df) three_entities ->
       exists forecast,
         @prophet_forecast_for toy_prophet df 12 = Ok forecast /\
         dict_get forecasts key = Some forecast).
Proof.
  apply (@prophet_pipeline_all_or_nothing toy_prophet three_entities 12).
  repeat constructor; simpl; intuition discriminate.
Defined.

(** ** The layout of the generated table *)

Section GeneratorLayout.

Context {env : GeneratorEnv}.

(** A loop invariant that knows which items have been processed. *)
Lemma gen_for_invariant_indexed {A S} (P : list A -> S -> Prop)
      (body : A -> S -> Gen S) :
  (forall pre x s st s' st',
     P pre s -> body x s st = Ok (s', st') -> P (pre ++ [x]) s') ->
  forall xs pre s st s' st',
    P pre s -> gen_for xs body s st = Ok (s', st') -> P (pre ++ xs) s'.
Proof.
  intros Hbody xs. induction xs as [| x xs IH];
    intros pre s st s' st' Hs Hrun.
  - cbn in Hrun. injection Hrun as <- _. rewrite app_nil_r. exact Hs.
  - cbn [gen_for] in Hrun. unfold gen_bind in Hrun at 1.
    destruct (body x s st) as [[s1 st1] | e] eqn:E; [| discriminate].
    replace (pre ++ x :: xs) with ((pre ++ [x]) ++ xs)
      by (rewrite <- app_assoc; reflexivity).
    eapply IH; [| exact Hrun]. eapply Hbody; eassumption.
Qed.

Lemma generate_row_appends start pid cat base trend seasonality date_ data
      st data' st' :
  generate_row start pid cat base trend seasonality date_ data st
  = Ok (data', st') ->
  exists r,
    data' = data ++ [r] /\
    rec_product_id r = pid /\ rec_category r = cat /\ rec_date r = date_.
Proof.
  intros Hrun. unfold generate_row, gen_bind, gen_lift, gen_ret in Hrun.
  destruct (np_random_normal _ _ st) as [[noise st1] |]; [| discriminate].
  destruct (np_random_choice_0_1 _ _ st1) as [[promotion st2] |];
    [| discriminate].
  destruct (py_int _) as [sales_ |]; [| discriminate].
  destruct (np_random_uniform _ _ st2) as [[price_ st3] |]; [| discriminate].
  injection Hrun as <- _. eexists. repeat split.
Qed.

Lemma generate_product_appends start dates num_categories pid data
      st data' st' :
  generate_product start dates num_categories pid data st = Ok (data', st') ->
  exists cat rows,
    data' = data ++ rows /\
    map (fun r => (rec_product_id r, rec_category r, rec_date r)) rows
    = map (fun d => (pid, cat, d)) dates.
Proof.
  intros Hrun. unfold generate_product, gen_bind in Hrun.
  destruct (np_random_randint 1 _ st) as [[c st1] |]; [| discriminate].
  destruct (np_random_randint 100 1000 st1) as [[base st2] |];
    [| discriminate].
  destruct (np_random_uniform _ _ st2) as [[trend st3] |]; [| discriminate].
  destruct (np_random_uniform _ _ st3) as [[seasonality st4] |];
    [| discriminate].
  exists ("Category_" ++ str_of_Z c)%string.
  pose proof (gen_for_invariant_indexed
    (fun pre d =>
       exists rows,
         d = data ++ rows /\
         map (fun r => (rec_product_id r, rec_category r, rec_date r)) rows
         = map (fun x => (pid, ("Category_" ++ str_of_Z c)%string, x)) pre)
    (generate_row start pid ("Category_" ++ str_of_Z c)%string base trend
                  seasonality)) as Hinv.
  apply (Hinv) with (pre := []) (xs := dates) (s := data) (st := st4)
                    (st' := st'); [| | exact Hrun].
  - intros pre x s st0 s' st0' (rows & -> & Hrows) Hstep.
    destruct (generate_row_appends _ _ _ _ _ _ _ _ _ _ _ Hstep)
      as (r & -> & Hp & Hc & Hd).
    exists (rows ++ [r]). split; [rewrite app_assoc; reflexivity|].
    rewrite !map_app, Hrows. cbn [map]. rewrite Hp, Hc, Hd. reflexivity.
  - exists []. split; [rewrite app_nil_r; reflexivity | reflexivity].
Qed.

End GeneratorLayout.

(** X11.  When [generate_synthetic_sales_data] returns, both date strings
    were parsed and the table holds, product after product from 1 to
    [num_products], one row for every month end between the start and the
    end date, in date order; it has [num_products] times that many rows. *)
Theorem generated_table_layout
    {env : GeneratorEnv} (num_products num_categories : Z)
    (start_date end_date : string) (st st' : rng_state)
    (df : list SalesRecord) :
  generate_synthetic_sales_data num_products num_categories
                                start_date end_date st
  = Ok (df, st') ->
  exists start end_,
    strptime_Ymd start_date = Ok start /\
    strptime_Ymd end_date = Ok end_ /\
    map (fun r => (rec_product_id r, rec_date r)) df
    = flat_map (fun p => map (pair p) (pd_date_range_M start end_))
               (Zrange 1 num_products) /\
    length df
    = (Z.to_nat num_products * length (pd_date_range_M start end_))%nat.
Proof.
  intros Hrun.
  unfold generate_synthetic_sales_data, gen_bind, gen_lift in Hrun.
  destruct (strptime_Ymd start_date) as [start |]; [| discriminate].
  destruct (strptime_Ymd end_date) as [end_ |]; [| discriminate].
  exists start, end_. split; [reflexivity|]. split; [reflexivity|].
  set (dates := pd_date_range_M start end_) in *.
  assert (Hlayout :
    map (fun r => (rec_product_id r, rec_date r)) df
    = flat_map (fun p => map (pair p) dates) (Zrange 1 num_products)).
  { apply (gen_for_invariant_indexed
             (fun pre d =>
                map (fun r => (rec_product_id r, rec_date r)) d
                = flat_map (fun p => map (pair p) dates) pre)
             (generate_product start dates num_categories))
      with (pre := []) (xs := Zrange 1 num_products) (s := [])
           (st := st) (st' := st'); [| reflexivity | exact Hrun].
    intros pre p s st0 s' st0' Hs Hstep.
    destruct (generate_product_appends _ _ _ _ _ _ _ _ Hstep)
      as (cat & rows & -> & Hrows).
    rewrite map_app, Hs, flat_map_app. cbn [flat_map].
    rewrite app_nil_r. f_equal.
    apply (f_equal (map (fun t : Z * string * Timestamp =>
                           (fst (fst t), snd t)))) in Hrows.
    rewrite !map_map in Hrows. exact Hrows. }
  split; [exact Hlayout|].
  apply (f_equal (@length _)) in Hlayout. rewrite length_map in Hlayout.
  rewrite Hlayout. rewrite <- (Zrange_length 1 num_products).
  generalize (Zrange 1 num_products). intros ps.
  induction ps as [| p ps IH]; [reflexivity|].
  cbn [flat_map length]. rewrite length_app, length_map, IH. lia.
Qed.

Lemma generated_table_layout_witness :
  exists df st' start end_,
    @generate_synthetic_sales_data toy_env 2 3 "2020-01-01" "2020-03-31" 0
    = Ok (df, st') /\
    @strptime_Ymd toy_env "2020-01-01" = Ok start /\
    @strptime_Ymd toy_env "2020-03-31" = Ok end_ /\
    map (fun r => (rec_product_id r, rec_date r)) df
    = flat_map (fun p => map (pair p) (pd_date_range_M start end_))
               (Zrange 1 2) /\
    length df = (Z.to_nat 2 * length (pd_date_range_M start end_))%nat.
Proof.
  do 2 eexists.
  destruct (@generated_table_layout toy_env 2 3 "2020-01-01" "2020-03-31"
              0 _ _ ltac:(vm_compute; reflexivity))
    as (start & end_ & H1 & H2 & H3 & H4).
  exists start, end_. split; [vm_compute; reflexivity|].
  repeat split; assumption.
Defined.

Lemma Zrange_NoDup lo n : NoDup (Zrange lo n).
Proof.
  unfold Zrange. generalize (Z.to_nat n) as len, 0%nat as s.
  induction len as [| len IH]; intros s; cbn [seq map]; constructor.
  - intros Hin. apply in_map_iff in Hin as (k & Hk & Hin).
    apply in_seq in Hin. lia.
  - apply IH.
Qed.

(** X12.  A product keeps the category drawn for it: any two rows of the
    returned table with the same product id have the same category. *)
Theorem generated_category_per_product
    {env : GeneratorEnv} (num_products num_categories : Z)
    (start_date end_date : string) (st st' : rng_state)
    (df : list SalesRecord) :
  generate_synthetic_sales_data num_products num_categories
                                start_date end_date st
  = Ok (df, st') ->
  forall r1 r2, In r1 df -> In r2 df ->
    rec_product_id r1 = rec_product_id r2 ->
    rec_category r1 = rec_category r2.
Proof.
  intros Hrun.
  unfold generate_synthetic_sales_data, gen_bind, gen_lift in Hrun.
  destruct (strptime_Ymd start_date) as [start |]; [| discriminate].
  destruct (strptime_Ymd end_date) as [end_ |]; [| discriminate].
  assert (Hinv :
    NoDup ([] ++ Zrange 1 num_products) ->
    exists catmap : Z -> string,
      forall r, In r df ->
        In (rec_product_id r) ([] ++ Zrange 1 num_products) /\
        rec_category r = catmap (rec_product_id r)).
  { apply (gen_for_invariant_indexed
             (fun pre d =>
                NoDup pre ->
                exists catmap : Z -> string,
                  forall r, In r d ->
                    In (rec_product_id r) pre /\
                    rec_category r = catmap (rec_product_id r))
             (generate_product start (pd_date_range_M start end_)
                               num_categories))
      with (s := []) (st := st) (st' := st'); [| | exact Hrun].
    - intros pre p s st0 s' st0' Hs Hstep Hnd.
      apply NoDup_remove in Hnd as [Hnd Hfresh]. rewrite app_nil_r in *.
      destruct (Hs Hnd) as (catmap & Hcat).
      destruct (generate_product_appends _ _ _ _ _ _ _ _ Hstep)
        as (cat & rows & -> & Hrows).
      exists (fun q => if q =? p then cat else catmap q).
      intros r Hr. apply in_app_or in Hr as [Hr | Hr].
      + destruct (Hcat r Hr) as [Hin Hc]. split.
        * apply in_or_app. left. exact Hin.
        * destruct (Z.eqb_spec (rec_product_id r) p) as [E | E];
            [rewrite E in Hin; contradiction | exact Hc].
      + assert (Hr' : In (rec_product_id r, rec_category r, rec_date r)
                         (map (fun d => (p, cat, d))
                              (pd_date_range_M start end_))).
        { rewrite <- Hrows.
          apply (in_map (fun r => (rec_product_id r, rec_category r,
                                   rec_date r))), Hr. }
        apply in_map_iff in Hr' as (d & Hd & _).
        injection Hd as Hp Hc _. split.
        * apply in_or_app. right. left. congruence.
        * rewrite <- Hp, Z.eqb_refl. congruence.
    - intros _. exists (fun _ => EmptyString). intros r []. }
  destruct (Hinv (Zrange_NoDup 1 num_products)) as (catmap & Hcat).
  intros r1 r2 H1 H2 Heq.
  destruct (Hcat r1 H1) as [_ ->]. destruct (Hcat r2 H2) as [_ ->].
  rewrite Heq. reflexivity.
Qed.

Lemma generated_category_per_product_witness :
  exists df st',
    @generate_synthetic_sales_data toy_env 2 3 "2020-01-01" "2020-03-31" 0
    = Ok (df, st') /\
    forall r1 r2, In r1 df -> In r2 df ->
      rec_product_id r1 = rec_product_id r2 ->
      rec_category r1 = rec_category r2.
Proof.
  do 2 eexists. split; [vm_compute; reflexivity|].
  eapply (@generated_category_per_product toy_env 2 3
            "2020-01-01" "2020-03-31" 0).
  vm_compute. reflexivity.
Defined.

(** X13.  With [num_products <= 0] the product loop does not run: once the
    two dates are parsed, to dates that pandas can hold (here: of the years
    1678 to 2261), the generator returns the empty table and leaves the
    state of the random generator untouched. *)
Theorem generated_table_without_products
    {env : GeneratorEnv} (num_products num_categories : Z)
    (start_date end_date : string) (start end_ : Timestamp)
    (st : rng_state) :
  num_products <= 0 ->
  strptime_Ymd start_date = Ok start ->
  strptime_Ymd end_date = Ok end_ ->
  within_timestamp_range start ->
  within_timestamp_range end_ ->
  generate_synthetic_sales_data num_products num_categories
                                start_date end_date st
  = Ok ([], st).
Proof.
  intros Hn Hs He _ _.
  unfold generate_synthetic_sales_data, gen_bind, gen_lift.
  rewrite Hs, He. unfold Zrange.
  replace (Z.to_nat num_products) with 0%nat by lia. reflexivity.
Qed.

Lemma generated_table_without_products_witness :
  @generate_synthetic_sales_data toy_env 0 3 "2020-01-01" "2020-03-31" 5
  = Ok ([], 5).
Proof.
  apply (@generated_table_without_products toy_env 0 3
           "2020-01-01" "2020-03-31"
           (mkTimestamp 2020 1 1) (mkTimestamp 2020 3 31) 5);
    [lia | reflexivity | reflexivity
     | unfold within_timestamp_range; cbn; lia
     | unfold within_timestamp_range; cbn; lia].
Defined.

(** ** More on [preprocess_data] *)

Lemma preprocess_data_partition_witness :
  exists train test,
    dict_get (fst (preprocess_data two_product_table col_product_id 0))
             (KInt 2) = Some train /\
    dict_get (snd (preprocess_data two_product_table col_product_id 0))
             (KInt 2) = Some test /\
    train ++ test = resampled product_2_rows /\
    (length train + length test = length (resampled product_2_rows))%nat.
Proof.
  apply (preprocess_data_partition two_product_table col_product_id 0
           (KInt 2) product_2_rows).
  vm_compute. tauto.
Defined.

Lemma preprocess_data_split_witness :
  dict_get (fst (preprocess_data two_product_table col_product_id 2))
           (KInt 2)
  = Some (firstn (length (resampled product_2_rows) - Z.to_nat 2)
                 (resampled product_2_rows)) /\
  dict_get (snd (preprocess_data two_product_table col_product_id 2))
           (KInt 2)
  = Some (skipn (length (resampled product_2_rows) - Z.to_nat 2)
                (resampled product_2_rows)).
Proof.
  apply (preprocess_data_split two_product_table col_product_id 2
           (KInt 2) product_2_rows).
  - lia.
  - vm_compute. tauto.
Defined.

Lemma dict_get_preprocessed df c K name group :
  In (name, group) (groupby df c) ->
  dict_get (fst (preprocess_data df c K)) name
  = Some (py_slice None (Some (- K)) (resampled group)) /\
  dict_get (snd (preprocess_data df c K)) name
  = Some (py_slice (Some (- K)) None (resampled group)).
Proof.
  intros Hin. rewrite preprocess_data_eq. cbn [fst snd].
  pose proof (groupby_NoDup df c) as Hnd.
  pose proof (dict_get_map (fun g => py_slice None (Some (- K)) (resampled g))
                _ name group Hnd Hin) as Htrain.
  pose proof (dict_get_map (fun g => py_slice (Some (- K)) None (resampled g))
                _ name group Hnd Hin) as Htest.
  split; [exact Htrain | exact Htest].
Qed.

(** X16.  A group whose resampled series has no more than [test_size]
    points (for a positive [test_size]) gets an empty training part, and
    its whole series becomes the test part; nothing is raised. *)
Theorem preprocess_data_short_group
    (df : DataFrame) (c : Column) (K : Z) (name : Key) (group : list Row) :
  0 < K ->
  In (name, group) (groupby df c) ->
  Z.of_nat (length (resampled group)) <= K ->
  dict_get (fst (preprocess_data df c K)) name = Some [] /\
  dict_get (snd (preprocess_data df c K)) name = Some (resampled group).
Proof.
  intros HK Hin Hshort.
  destruct (dict_get_preprocessed df c K name group Hin) as [Htrain Htest].
  rewrite py_slice_head_positive in Htrain by exact HK.
  rewrite py_slice_tail_positive in Htest by exact HK.
  replace (length (resampled group) - Z.to_nat K)%nat with 0%nat
    in Htrain, Htest by lia.
  split; [exact Htrain | exact Htest].
Qed.

Lemma preprocess_data_short_group_witness :
  dict_get (fst (preprocess_data two_product_table col_product_id 12))
           (KInt 2) = Some [] /\
  dict_get (snd (preprocess_data two_product_table col_product_id 12))
           (KInt 2) = Some (resampled product_2_rows).
Proof.
  apply (preprocess_data_short_group two_product_table col_product_id 12
           (KInt 2) product_2_rows).
  - lia.
  - vm_compute. tauto.
  - vm_compute. discriminate.
Defined.

Lemma Key_leb_total a b : Key_leb a b = false -> Key_leb b a = true.
Proof.
  destruct a as [x | x], b as [y | y]; cbn; intros H;
    try reflexivity; try discriminate.
  - apply Z.leb_le. apply Z.leb_gt in H. lia.
  - destruct (String.leb_total x y) as [H' | H']; congruence.
Qed.

Lemma insert_sorted_Sorted k l :
  Sorted (fun a b => Key_leb a b = true) l ->
  Sorted (fun a b => Key_leb a b = true) (insert_sorted k l).
Proof.
  induction l as [| k' l IH]; intros Hs; cbn [insert_sorted].
  - repeat constructor.
  - destruct (Key_leb k k') eqn:E.
    + constructor; [exact Hs | constructor; exact E].
    + apply Sorted_inv in Hs as [Hs Hhd].
      constructor; [apply IH, Hs|].
      destruct l as [| k'' l']; cbn [insert_sorted].
      * constructor. apply Key_leb_total, E.
      * destruct (Key_leb k k''); constructor.
        -- apply Key_leb_total, E.
        -- inversion Hhd; assumption.
Qed.

Lemma insert_key_in k l x : In x (insert_key k l) <-> x = k \/ In x l.
Proof.
  unfold insert_key. destruct (existsb (Key_eqb k) l) eqn:E.
  - split; [tauto|]. intros [-> | H]; [| exact H].
    apply existsb_exists in E as (y & Hy & Heq).
    apply Key_eqb_eq in Heq as ->. exact Hy.
  - apply insert_sorted_in.
Qed.

Lemma group_keys_spec (df : DataFrame) c : forall acc,
  Sorted (fun a b => Key_leb a b = true) acc ->
  Sorted (fun a b => Key_leb a b = true)
         (fold_left (fun acc r => insert_key (key_of c r) acc) df acc) /\
  forall k,
    In k (fold_left (fun acc r => insert_key (key_of c r) acc) df acc) <->
    In k acc \/ exists r, In r df /\ key_of c r = k.
Proof.
  induction df as [| r df IH]; intros acc Hs; cbn [fold_left].
  - split; [exact Hs|]. intros k. split; [tauto|].
    intros [H | (r & [] & _)]. exact H.
  - assert (Hs' : Sorted (fun a b => Key_leb a b = true)
                         (insert_key (key_of c r) acc)).
    { unfold insert_key. destruct (existsb _ acc); [exact Hs|].
      apply insert_sorted_Sorted, Hs. }
    destruct (IH _ Hs') as [Hsorted Hin]. split; [exact Hsorted|].
    intros k. rewrite Hin, insert_key_in. split.
    + intros [[-> | H] | (r' & Hr' & Hk)].
      * right. exists r. split; [left; reflexivity | reflexivity].
      * left. exact H.
      * right. exists r'. split; [right; exact Hr' | exact Hk].
    + intros [H | (r' & [<- | Hr'] & Hk)].
      * left. right. exact H.
      * left. left. symmetry. exact Hk.
      * right. exists r'. split; assumption.
Qed.

(** X17.  The training and the test dictionary have the same keys: the
    distinct values of the grouping column, each once, in increasing
    order. *)
Theorem preprocess_data_keys (df : DataFrame) (c : Column) (K : Z) :
  dict_keys (fst (preprocess_data df c K))
  = dict_keys (snd (preprocess_data df c K)) /\
  NoDup (dict_keys (fst (preprocess_data df c K))) /\
  Sorted (fun a b => Key_leb a b = true)
         (dict_keys (fst (preprocess_data df c K))) /\
  forall k,
    In k (dict_keys (fst (preprocess_data df c K))) <->
    exists r, In r df /\ key_of c r = k.
Proof.
  rewrite preprocess_data_eq. cbn [fst snd]. unfold dict_keys.
  rewrite !map_map. cbn [fst].
  pose proof (groupby_NoDup df c) as Hnd.
  assert (Hkeys : map fst (groupby df c)
                  = fold_left (fun acc r => insert_key (key_of c r) acc)
                              df []).
  { unfold groupby. rewrite map_map. cbn [fst]. apply map_id. }
  destruct (group_keys_spec df c [] (Sorted_nil _)) as [Hsorted Hin].
  change (map (fun x : Key * list Row => fst x) (groupby df c))
    with (map fst (groupby df c)).
  split; [reflexivity|]. split; [exact Hnd|].
  rewrite Hkeys. split; [exact Hsorted|].
  intros k. rewrite Hin. split; [intros [[] | H]; exact H | tauto].
Qed.

(** ** Sorting by date and monthly resampling *)

Lemma date_le_trans r1 r2 r3 : date_le r1 r2 -> date_le r2 r3 -> date_le r1 r3.
Proof.
  unfold date_le. intros H12 H23.
  apply not_true_iff_false. apply not_true_iff_false in H12, H23.
  rewrite Timestamp_ltb_spec in *. lia.
Qed.

Lemma date_le_after r1 r2 :
  Timestamp_ltb (date r1) (date r2) = true -> date_le r1 r2.
Proof.
  unfold date_le. intros H. apply not_true_iff_false.
  rewrite Timestamp_ltb_spec in *. lia.
Qed.

Lemma insert_by_date_in r l x :
  In x (insert_by_date r l) <-> x = r \/ In x l.
Proof.
  induction l as [| r' l IH]; cbn [insert_by_date].
  - cbn. intuition congruence.
  - destruct (Timestamp_ltb (date r) (date r')); cbn [In].
    + intuition congruence.
    + rewrite IH. intuition congruence.
Qed.

Lemma insert_by_date_Sorted r l :
  Sorted date_le l -> Sorted date_le (insert_by_date r l).
Proof.
  induction l as [| r' l IH]; intros Hs; cbn [insert_by_date].
  - repeat constructor.
  - destruct (Timestamp_ltb (date r) (date r')) eqn:E.
    + constructor; [exact Hs | constructor; apply date_le_after, E].
    + apply Sorted_inv in Hs as [Hs Hhd].
      constructor; [apply IH, Hs|].
      destruct l as [| r'' l']; cbn [insert_by_date].
      * constructor. exact E.
      * destruct (Timestamp_ltb (date r) (date r'')); constructor.
        -- exact E.
        -- inversion Hhd; assumption.
Qed.

Lemma sort_values_date_spec (group : list Row) : forall acc,
  Sorted date_le acc ->
  Sorted date_le (fold_left (fun acc r => insert_by_date r acc) group acc) /\
  forall x,
    In x (fold_left (fun acc r => insert_by_date r acc) group acc) <->
    In x acc \/ In x group.
Proof.
  induction group as [| r group IH]; intros acc Hs; cbn [fold_left].
  - split; [exact Hs|]. intros x. cbn. tauto.
  - destruct (IH _ (insert_by_date_Sorted r acc Hs)) as [Hsorted Hin].
    split; [exact Hsorted|]. intros x.
    rewrite Hin, insert_by_date_in. cbn [In]. intuition congruence.
Qed.

Lemma sort_values_date_in group x :
  In x (sort_values_date group) <-> In x group.
Proof.
  unfold sort_values_date.
  destruct (sort_values_date_spec group [] (Sorted_nil _)) as [_ H].
  rewrite H. cbn. tauto.
Qed.

Lemma sort_values_date_sorted group :
  StronglySorted date_le (sort_values_date group).
Proof.
  apply Sorted_StronglySorted.
  - intros r1 r2 r3. apply date_le_trans.
  - apply (sort_values_date_spec group [] (Sorted_nil _)).
Qed.

Lemma StronglySorted_last (l : list Row) d :
  StronglySorted date_le l ->
  forall x, In x l -> date_le x (last l d).
Proof.
  induction 1 as [| a l Hs IH Hall]; intros x Hx; [destruct Hx|].
  destruct l as [| b l'].
  - destruct Hx as [<- | []]. cbn. unfold date_le.
    destruct (Timestamp_ltb (date a) (date a)) eqn:E; [| reflexivity].
    apply Timestamp_ltb_spec in E. lia.
  - change (last (a :: b :: l') d) with (last (b :: l') d).
    destruct Hx as [<- | Hx]; [| apply IH, Hx].
    rewrite Forall_forall in Hall. apply Hall.
    clear. revert b. induction l' as [| c l' IH]; intros b.
    + left. reflexivity.
    + change (last (b :: c :: l') d) with (last (c :: l') d).
      right. apply IH.
Qed.

Lemma last_in (l : list Row) a : In (last (a :: l) a) (a :: l).
Proof.
  destruct (exists_last (l := a :: l) ltac:(discriminate)) as (l' & x & E).
  rewrite E, last_last. apply in_or_app. right. left. reflexivity.
Qed.

Lemma month_index_mono r1 r2 :
  date_le r1 r2 ->
  1 <= month (date r1) <= 12 -> 1 <= month (date r2) <= 12 ->
  month_index (date r1) <= month_index (date r2).
Proof.
  unfold date_le, month_index. intros H H1 H2.
  apply not_true_iff_false in H. rewrite Timestamp_ltb_spec in H. lia.
Qed.

(** X18.  For a non-empty group with valid months, the resampled series
    has one point for every calendar month from the month of the group's
    earliest row to the month of its latest row, in order and labelled with
    the month ends, whatever the order of the rows in the table; every row's
    month lies in that range. *)
Theorem resampled_covers_months (group : list Row) :
  group <> [] ->
  (forall r, In r group -> 1 <= month (date r) <= 12) ->
  exists first last_,
    In first group /\ In last_ group /\
    (forall r, In r group ->
       month_index (date first) <= month_index (date r)
       <= month_index (date last_)) /\
    map fst (resampled group)
    = map month_end
          (Zrange (month_index (date first))
                  (month_index (date last_) - month_index (date first) + 1)).
Proof.
  intros Hne Hvalid. unfold resampled.
  pose proof (sort_values_date_sorted group) as Hs.
  pose proof (sort_values_date_in group) as Hin.
  destruct (sort_values_date group) as [| r0 rest] eqn:Esort.
  - destruct group as [| r group]; [congruence|].
    destruct (proj2 (Hin r) (or_introl eq_refl)).
  - exists r0, (last (r0 :: rest) r0).
    split; [apply Hin; left; reflexivity|].
    split; [apply Hin, last_in|].
    split.
    + intros r Hr. apply Hin in Hr as Hr'. split.
      * destruct Hr' as [<- | Hr']; [lia|].
        apply StronglySorted_inv in Hs as [_ Hall].
        rewrite Forall_forall in Hall.
        apply month_index_mono;
          [apply Hall, Hr' | apply Hvalid, Hin; left; reflexivity
           | apply Hvalid, Hr].
      * apply month_index_mono;
          [apply StronglySorted_last; assumption | apply Hvalid, Hr
           | apply Hvalid, Hin, last_in].
    + unfold resample_M_sum_sales. rewrite map_map. cbn [fst]. reflexivity.
Qed.

Lemma resampled_covers_months_witness :
  exists first last_,
    In first product_2_rows /\ In last_ product_2_rows /\
    (forall r, In r product_2_rows ->
       month_index (date first) <= month_index (date r)
       <= month_index (date last_)) /\
    map fst (resampled product_2_rows)
    = map month_end
          (Zrange (month_index (date first))
                  (month_index (date last_) - month_index (date first) + 1)).
Proof.
  apply (resampled_covers_months product_2_rows).
  - discriminate.
  - intros r [<- | [<- | []]]; cbn; lia.
Defined.

Lemma filter_all_false {A} (f : A -> bool) (l : list A) :
  (forall x, In x l -> f x = false) -> filter f l = [].
Proof.
  induction l as [| a l IH]; intros H; [reflexivity|].
  cbn [filter]. rewrite (H a (or_introl eq_refl)).
  apply IH. intros x Hx. apply H. right. exact Hx.
Qed.

(** X19.  A month of the resampled series in which the group has no row
    holds the sum of nothing, [0.0]. *)
Theorem resampled_gap_month_is_zero
    (group : list Row) (d : Timestamp) (v : float) :
  In (d, v) (resampled group) ->
  (forall r, In r group -> month_end (month_index (date r)) <> d) ->
  v = F64.zero.
Proof.
  unfold resampled, resample_M_sum_sales. intros Hin Hgap.
  pose proof (sort_values_date_in group) as Hsort.
  destruct (sort_values_date group) as [| r0 rest]; [destruct Hin|].
  apply in_map_iff in Hin as (i & Heq & _).
  assert (Hnone : filter (fun r => month_index (date r) =? i) (r0 :: rest)
                  = []).
  { apply filter_all_false. intros r Hr.
    destruct (Z.eqb_spec (month_index (date r)) i) as [E |]; [| reflexivity].
    exfalso. apply (Hgap r); [apply Hsort, Hr|].
    rewrite E. congruence. }
  rewrite Hnone in Heq. injection Heq as _ <-. reflexivity.
Qed.

Lemma resampled_gap_month_is_zero_witness :
  In (mkTimestamp 2023 2 28, F64.zero) (resampled product_2_rows) /\
  F64.zero = F64.zero.
Proof.
  split; [vm_compute; tauto|].
  apply (resampled_gap_month_is_zero product_2_rows (mkTimestamp 2023 2 28)).
  - vm_compute. tauto.
  - intros r [<- | [<- | []]]; vm_compute; discriminate.
Defined.

(** ** The whole run *)

Lemma dict_mem_key {V} (d : dict V) k :
  In k (dict_keys d) -> dict_mem d k = true.
Proof.
  unfold dict_mem. induction d as [| [k' v] d IH]; intros H; [destruct H|].
  cbn [dict_get]. destruct (Key_eqb k k') eqn:E; [reflexivity|].
  apply IH. destruct H as [H | H]; [| exact H].
  cbn in H. subst k'. rewrite Key_eqb_refl in E. discriminate.
Qed.

(** X20.  Whenever the run of [main]'s steps 2 to 5 returns, the ARIMA
    forecasts, the Prophet forecasts and the comparison frame each have
    exactly one entry per distinct value of the grouping column, in
    increasing order of that value: no entity is skipped by the
    comparison. *)
Theorem run_pipeline_one_entry_per_group
    {sm : Statsmodels} {pl : ProphetLib}
    (df : DataFrame) (c : Column) (K steps : Z)
    (arima : dict Series) (prophet : dict ProphetFrame)
    (rows : list ComparisonRow) :
  run_pipeline df c K steps = Ok (arima, prophet, rows) ->
  dict_keys arima = map fst (groupby df c) /\
  dict_keys prophet = map fst (groupby df c) /\
  map Product_Category rows = map fst (groupby df c).
Proof.
  unfold run_pipeline. rewrite preprocess_data_eq.
  set (train := map (fun g => (fst g, py_slice None (Some (- K))
                                        (resampled (snd g)))) (groupby df c)).
  set (test := map (fun g => (fst g, py_slice (Some (- K)) None
                                       (resampled (snd g)))) (groupby df c)).
  assert (Htrain : dict_keys train = map fst (groupby df c)).
  { unfold train, dict_keys. rewrite map_map. reflexivity. }
  assert (Htest : dict_keys test = map fst (groupby df c)).
  { unfold test, dict_keys. rewrite map_map. reflexivity. }
  assert (Hnd : NoDup (dict_keys train)).
  { rewrite Htrain. apply groupby_NoDup. }
  pose proof (arima_pipeline_cases train steps Hnd) as Ha.
  pose proof (prophet_pipeline_cases train steps Hnd) as Hp.
  destruct (arima_pipeline train steps) as [a |]; [| discriminate].
  destruct (prophet_pipeline train steps) as [p |]; [| discriminate].
  cbn [bind].
  destruct (compare_models a p test) as [r |] eqn:Ec; [| discriminate].
  cbn [bind]. intros H. injection H as <- <- <-.
  destruct Ha as [Ha _], Hp as [Hp _].
  pose proof (eq_trans Ha Htrain) as Ha'.
  pose proof (eq_trans Hp Htrain) as Hp'.
  split; [exact Ha'|]. split; [exact Hp'|].
  unfold compare_models in Ec.
  destruct (compare_loop_inv _ _ _ _ _ _ Ec) as (rows' & -> & Hrows).
  cbn [app]. rewrite (compared_key _ _ _ _ _ Hrows).
  rewrite filter_all_true; [exact Ha'|].
  intros k Hk. apply dict_mem_key.
  rewrite Ha' in Hk. rewrite <- Htest in Hk. exact Hk.
Qed.

Lemma run_pipeline_one_entry_per_group_witness :
  exists arima prophet rows,
    @run_pipeline toy_statsmodels toy_prophet table_48 col_product_id 12 12
    = Ok (arima, prophet, rows) /\
    dict_keys arima = map fst (groupby table_48 col_product_id) /\
    dict_keys prophet = map fst (groupby table_48 col_product_id) /\
    map Product_Category rows = map fst (groupby table_48 col_product_id).
Proof.
  assert (H : exists out,
    @run_pipeline toy_statsmodels toy_prophet table_48 col_product_id 12 12
    = Ok out).
  { eexists. vm_compute. reflexivity. }
  destruct H as ([[arima prophet] rows] & H).
  exists arima, prophet, rows. split; [exact H|].
  apply (@run_pipeline_one_entry_per_group toy_statsmodels toy_prophet
           table_48 col_product_id 12 12 arima prophet rows H).
Defined.

(** ** Ranges of the metrics and broadcasting in [calculate_mape] *)

(** X21.  Whenever [evaluate_forecast] returns (on fewer than 2^53
    values), MAE and RMSE are neither negative nor NaN, MAPE is not
    negative, and MAPE is NaN only if some actual value is zero. *)
Theorem evaluate_forecast_metrics_range
    (actual predicted : ndarray) (m : Metrics) :
  evaluate_forecast actual predicted = Ok m ->
  Z.of_nat (length actual) < 2 ^ 53 ->
  F64.nonneg (MAE m) = true /\
  F64.nonneg (RMSE m) = true /\
  nonneg_or_nan (MAPE m) = true /\
  (F64.is_nan (MAPE m) = true -> existsb F64.is_zero actual = true).
Proof.
  intros H Hsmall.
  pose proof (evaluate_forecast_cases actual predicted) as Hc.
  rewrite H in Hc. destruct Hc as [Hcomp ->].
  apply metrics_of_sound; assumption.
Qed.

Lemma evaluate_forecast_metrics_range_witness :
  exists m,
    evaluate_forecast [F64.c100; F64.zero] [F64.c1; F64.c1] = Ok m /\
    F64.nonneg (MAE m) = true /\
    F64.nonneg (RMSE m) = true /\
    nonneg_or_nan (MAPE m) = true /\
    (F64.is_nan (MAPE m) = true ->
     existsb F64.is_zero [F64.c100; F64.zero] = true).
Proof.
  assert (H : exists m,
    evaluate_forecast [F64.c100; F64.zero] [F64.c1; F64.c1] = Ok m).
  { eexists. vm_compute. reflexivity. }
  destruct H as (m & H). exists m. split; [exact H|].
  apply (evaluate_forecast_metrics_range [F64.c100; F64.zero]
           [F64.c1; F64.c1] m H).
  reflexivity.
Defined.

Lemma combine_repeat_r {A B C} (op : A -> B -> C) (a : list A) (y : B) :
  map (fun xy => op (fst xy) (snd xy)) (combine a (repeat y (length a)))
  = map (fun x => op x y) a.
Proof.
  induction a as [| x a IH]; [reflexivity|].
  cbn [length repeat combine map fst snd]. rewrite IH. reflexivity.
Qed.

Lemma combine_repeat_l {A B C} (op : A -> B -> C) (x : A) (b : list B) :
  map (fun xy => op (fst xy) (snd xy)) (combine (repeat x (length b)) b)
  = map (fun y => op x y) b.
Proof.
  induction b as [| y b IH]; [reflexivity|].
  cbn [length repeat combine map fst snd]. rewrite IH. reflexivity.
Qed.

Lemma np_binop_broadcast_r op (a : ndarray) (y : float) :
  np_binop op a [y] = np_binop op a (repeat y (length a)).
Proof.
  rewrite (np_binop_same_length op a (repeat y (length a)))
    by (rewrite repeat_length; reflexivity).
  rewrite combine_repeat_r. unfold np_binop.
  destruct a as [| x [| x' a]]; reflexivity.
Qed.

Lemma np_binop_broadcast_l op (x : float) (b : ndarray) :
  np_binop op [x] b = np_binop op (repeat x (length b)) b.
Proof.
  rewrite (np_binop_same_length op (repeat x (length b)) b)
    by (rewrite repeat_length; reflexivity).
  rewrite combine_repeat_l. unfold np_binop.
  destruct b as [| y [| y' b]]; reflexivity.
Qed.

(** X22.  [calculate_mape] broadcasts a single value: a one-element
    prediction is compared with every actual value, and a one-element
    actual array with every prediction, as if the single value were
    repeated to the length of the other array. *)
Theorem calculate_mape_broadcasts (y : ndarray) (x : float) :
  calculate_mape y [x] = calculate_mape y (repeat x (length y)) /\
  calculate_mape [x] y = calculate_mape (repeat x (length y)) y.
Proof.
  split.
  - unfold calculate_mape. rewrite np_binop_broadcast_r. reflexivity.
  - unfold calculate_mape.
    rewrite (np_binop_broadcast_l F64.sub x y).
    rewrite (np_binop_same_length F64.sub (repeat x (length y)) y)
      by (rewrite repeat_length; reflexivity).
    cbn [bind]. rewrite combine_repeat_l.
    rewrite (np_binop_broadcast_r F64.div (map (fun y0 => F64.sub x y0) y) x).
    rewrite length_map. reflexivity.
Qed.
